(** * CoreLLM: conversation memory and the streaming protocol

    A shallow embedding of [corellm/client.py] (class [LLM]) and of the
    history conversion of [corellm/gui.py].

    Python lists are mutable objects that the session and its callers may
    share, so conversation histories live in a store of list objects that
    are addressed by reference.  The methods of [LLM] are computations in a
    state-and-exception monad over that store and the fields of [self].
    Generators are explicit state machines that are advanced by [next]. *)

From Stdlib Require Import String Ascii List Bool Arith Lia.
From stdpp Require Import base option list gmap strings.

Local Open Scope string_scope.
Local Open Scope list_scope.

(** ** Data model *)

(** A message dict, [{"role": r, "content": c}]. *)
Record Turn : Type := mkTurn { role : string; content : string }.

Definition system_turn (c : string) : Turn := mkTurn "system" c.
Definition user_turn (c : string) : Turn := mkTurn "user" c.
Definition assistant_turn (c : string) : Turn := mkTurn "assistant" c.

(** Exceptions that the modelled code can raise or let through. *)
Inductive exn : Type :=
| BackendFailure (msg : string)
| KeyError (key : string)
| IndexError.

Inductive result (A : Type) : Type :=
| Ret (a : A)
| Raise (e : exn).
Arguments Ret {A} a.
Arguments Raise {A} e.

(** One element of a backend stream is a [Chunk]; the code only looks at
    [chunk["choices"][0]], a dict that may carry a ["delta"] dict, which in
    turn may carry ["content"] (and other keys such as ["role"]). *)
Record Chunk : Type := mkChunk { choice0_delta : option (gmap string string) }.

(** The inference backend, [self.llm].  [create_chat_completion(messages)]
    either raises or returns a response whose
    [["choices"][0]["message"]["content"]] is the given text; with
    [stream=True] it either raises or returns a finite stream of chunks.
    The backend reads the message list while it is called. *)
Record Llama : Type := mkLlama {
  create_chat_completion : list Turn -> result string;
  create_chat_completion_stream : list Turn -> result (list Chunk)
}.

(** References to list objects. *)
Definition ref : Type := nat.

(** The store of list objects, the two fields of [self], and two logs of
    what the session did to its collaborators: the message lists it sent
    to the backend (with the [stream] flag) and what it printed. *)
Record world : Type := mkWorld {
  heap : gmap nat (list Turn);
  next_ref : ref;
  self_system_prompt : string;
  self_memory : ref;
  requests : list (list Turn * bool);
  stdout : list string
}.

(** The state-and-exception monad: an exception keeps the state reached. *)
Definition M (A : Type) : Type := world -> result A * world.

Definition ret {A} (a : A) : M A := fun w => (Ret a, w).
Definition raise {A} (e : exn) : M A := fun w => (Raise e, w).
Definition bind {A B} (k : A -> M B) (m : M A) : M B :=
  fun w => match m w with
           | (Ret a, w') => k a w'
           | (Raise e, w') => (Raise e, w')
           end.

(** stdpp's monad notations: [x ← m; k] and [m;; k]. *)
#[global] Instance M_ret : MRet M := @ret.
#[global] Instance M_bind : MBind M := @bind.

(** *** Python list objects *)

(** Contents of the list object behind a reference (a reference that was
    never allocated reads as the empty list; the session never holds one,
    see [wf]). *)
Definition deref (w : world) (l : ref) : list Turn := default [] (heap w !! l).

Definition set_heap (h : gmap nat (list Turn)) (w : world) : world :=
  mkWorld h (next_ref w) (self_system_prompt w) (self_memory w)
          (requests w) (stdout w).

Definition store (l : ref) (xs : list Turn) (w : world) : world :=
  set_heap (<[l := xs]> (heap w)) w.

Definition allocated (xs : list Turn) (w : world) : world :=
  mkWorld (<[next_ref w := xs]> (heap w)) (S (next_ref w))
          (self_system_prompt w) (self_memory w) (requests w) (stdout w).

Definition with_memory (l : ref) (w : world) : world :=
  mkWorld (heap w) (next_ref w) (self_system_prompt w) l
          (requests w) (stdout w).

Definition logged (msgs : list Turn) (stream : bool) (w : world) : world :=
  mkWorld (heap w) (next_ref w) (self_system_prompt w) (self_memory w)
          (requests w ++ [(msgs, stream)]) (stdout w).

Definition printed (s : string) (w : world) : world :=
  mkWorld (heap w) (next_ref w) (self_system_prompt w) (self_memory w)
          (requests w) (stdout w ++ [s]).

(** [[x, ...]]: a new list object. *)
Definition list_new (xs : list Turn) : M ref :=
  fun w => (Ret (next_ref w), allocated xs w).

(** [l.append(x)] *)
Definition list_append (l : ref) (x : Turn) : M unit :=
  fun w => (Ret tt, store l (deref w l ++ [x]) w).

(** [l[i] = x] raises [IndexError] out of range. *)
Definition list_setitem (l : ref) (i : nat) (x : Turn) : M unit :=
  fun w => if (i <? length (deref w l))%nat
           then (Ret tt, store l (<[i := x]> (deref w l)) w)
           else (Raise IndexError, w).

(** The value of a list object, as read by [l.copy()] and by the backend. *)
Definition list_read (l : ref) : M (list Turn) :=
  fun w => (Ret (deref w l), w).

(** *** Fields of [self] and collaborators *)

Definition get_self_memory : M ref := fun w => (Ret (self_memory w), w).
Definition get_self_system_prompt : M string :=
  fun w => (Ret (self_system_prompt w), w).
Definition set_self_memory (l : ref) : M unit :=
  fun w => (Ret tt, with_memory l w).

(** The backend sees [msgs]. *)
Definition log_request (msgs : list Turn) (stream : bool) : M unit :=
  fun w => (Ret tt, logged msgs stream w).

Definition lift {A} (r : result A) : M A := fun w => (r, w).

(** [print(s, end="")] *)
Definition print (s : string) : M unit :=
  fun w => (Ret tt, printed s w).

Definition newline : string := String (ascii_of_nat 10) EmptyString.

(** The conversation history as a value: what [get_memory()] denotes. *)
Definition memory_of (w : world) : list Turn := deref w (self_memory w).

(** *** Python dicts and truthiness *)

(** [d[key]] on a dict that may lack [key]. *)
Definition getitem {A} (entry : option A) (key : string) : result A :=
  match entry with
  | Some a => Ret a
  | None => Raise (KeyError key)
  end.

(** [d.get(key, dflt)] *)
Definition get_or {A} (entry : option A) (dflt : A) : result A :=
  Ret (default dflt entry).

(** [if token:] on a string. *)
Definition truthy (token : string) : bool :=
  match token with
  | EmptyString => false
  | String _ _ => true
  end.

Definition result_bind {A B} (r : result A) (k : A -> result B) : result B :=
  match r with
  | Ret a => k a
  | Raise e => Raise e
  end.

(** *** Generators and their consumers *)

Section Iteration.

(** A generator type [G] with its [next]: [Some token] is a yielded
    value, [None] is [StopIteration]; a raised exception also ends the
    generator. *)
Context {G : Type} (next : G -> M (option string * G)).

(** A consumer that pulls at most [k] times and keeps what was yielded. *)
Fixpoint pull (k : nat) (g : G) : M (list string * G) :=
  match k with
  | O => ret ([], g)
  | S k' =>
      r ← next g;
      match r with
      | (None, g') => ret ([], g')
      | (Some token, g') =>
          r' ← pull k' g';
          ret (token :: fst r', snd r')
      end
  end.

(** [for _ in gen: pass], bounded by [fuel] pulls. *)
Fixpoint for_each (fuel : nat) (g : G) : M G :=
  match fuel with
  | O => ret g
  | S fuel' =>
      r ← next g;
      match r with
      | (None, g') => ret g'
      | (Some _, g') => for_each fuel' g'
      end
  end.

(** The loop with the fuel that the generator needs once it has started:
    [pending g'] bounds the pulls that are left after the first one. *)
Definition drain (pending : G -> nat) (g : G) : M G :=
  r ← next g;
  match r with
  | (None, g') => ret g'
  | (Some _, g') => for_each (S (pending g')) g'
  end.

End Iteration.

(** ** The session, [class LLM] *)

(** The generator object made by [chat_stream]: not started, suspended at
    its [yield] (with the unread rest of the backend stream and the local
    [full_message]), or finished. *)
Inductive chat_generator : Type :=
| ChatCreated (prompt : string) (print_stream : bool)
| ChatSuspended (print_stream : bool) (stream : list Chunk)
                (full_message : string)
| ChatFinished.

(** The generator object made by [prompt_stream]. *)
Inductive prompt_generator : Type :=
| PromptCreated (prompt : string) (print_stream use_memory : bool)
| PromptSuspended (print_stream : bool) (stream : list Chunk)
| PromptFinished.

Definition chat_pending (g : chat_generator) : nat :=
  match g with
  | ChatSuspended _ stream _ => length stream
  | _ => 0
  end.

Definition prompt_pending (g : prompt_generator) : nat :=
  match g with
  | PromptSuspended _ stream => length stream
  | _ => 0
  end.

(** [for chunk in stream:] of [chat_stream._generator], run up to the next
    [yield] ([Some (token, rest)]) or to the end of the stream ([None]);
    the second component is [full_message]. *)
Fixpoint chat_loop (stream : list Chunk) (full_message : string)
  : result (option (string * list Chunk) * string) :=
  match stream with
  | [] => Ret (None, full_message)
  | chunk :: rest =>
      result_bind (getitem (choice0_delta chunk) "delta") (fun delta =>
      result_bind (get_or (delta !! "content") "") (fun token =>
      if truthy token
      then Ret (Some (token, rest), full_message +:+ token)
      else chat_loop rest full_message))
  end.

(** [for chunk in stream:] of [prompt_stream._generator]. *)
Fixpoint prompt_loop (stream : list Chunk)
  : result (option (string * list Chunk)) :=
  match stream with
  | [] => Ret None
  | chunk :: rest =>
      result_bind (get_or (choice0_delta chunk) ∅) (fun delta =>
      result_bind (get_or (delta !! "content") "") (fun token =>
      if truthy token
      then Ret (Some (token, rest))
      else prompt_loop rest))
  end.

Section Session.

Variable llm : Llama.

(** [self.llm.create_chat_completion(messages=msgs)] *)
Definition llm_complete (msgs : list Turn) : M string :=
  log_request msgs false;; lift (create_chat_completion llm msgs).

(** [self.llm.create_chat_completion(messages=msgs, stream=True)] *)
Definition llm_stream (msgs : list Turn) : M (list Chunk) :=
  log_request msgs true;; lift (create_chat_completion_stream llm msgs).

(** [__init__]: the state right after construction. *)
Definition init (system_prompt : string) : world :=
  mkWorld {[ 0 := [system_turn system_prompt] ]} 1 system_prompt 0 [] [].

Definition chat (prompt : string) : M string :=
  m ← get_self_memory;
  list_append m (user_turn prompt);;
  m ← get_self_memory;
  msgs ← list_read m;
  message ← llm_complete msgs;
  m ← get_self_memory;
  list_append m (assistant_turn message);;
  ret message.

(** The [if use_memory: ... else: ...] block that [prompt] and
    [prompt_stream._generator] both start with; [temp_memory] is a new
    list that only the backend gets to see. *)
Definition temp_memory (prompt : string) (use_memory : bool)
  : M (list Turn) :=
  if use_memory then
    m ← get_self_memory;
    copy ← list_read m;
    ret (copy ++ [user_turn prompt])
  else
    sp ← get_self_system_prompt;
    ret [system_turn sp; user_turn prompt].

Definition prompt (prompt : string) (use_memory : bool) : M string :=
  msgs ← temp_memory prompt use_memory;
  message ← llm_complete msgs;
  ret message.

(** The body of [chat_stream._generator] from the [for] loop on. *)
Definition chat_resume (print_stream : bool) (stream : list Chunk)
           (full_message : string) : M (option string * chat_generator) :=
  r ← lift (chat_loop stream full_message);
  match r with
  | (Some (token, rest), full_message') =>
      (if print_stream then print token else ret tt);;
      ret (Some token, ChatSuspended print_stream rest full_message')
  | (None, full_message') =>
      (if print_stream then print newline else ret tt);;
      m ← get_self_memory;
      list_append m (assistant_turn full_message');;
      ret (None, ChatFinished)
  end.

(** [next(gen)] for the generator of [chat_stream]. *)
Definition chat_next (g : chat_generator)
  : M (option string * chat_generator) :=
  match g with
  | ChatCreated prompt print_stream =>
      m ← get_self_memory;
      list_append m (user_turn prompt);;
      m ← get_self_memory;
      msgs ← list_read m;
      stream ← llm_stream msgs;
      chat_resume print_stream stream ""
  | ChatSuspended print_stream stream full_message =>
      chat_resume print_stream stream full_message
  | ChatFinished => ret (None, ChatFinished)
  end.

(** [chat_stream]: [None] with [print_stream], else the generator. *)
Definition chat_stream (prompt : string) (print_stream : bool)
  : M (option chat_generator) :=
  let gen := ChatCreated prompt print_stream in
  if print_stream then
    drain chat_next chat_pending gen;;
    ret None
  else ret (Some gen).

(** The body of [prompt_stream._generator] from the [for] loop on. *)
Definition prompt_resume (print_stream : bool) (stream : list Chunk)
  : M (option string * prompt_generator) :=
  r ← lift (prompt_loop stream);
  match r with
  | Some (token, rest) =>
      (if print_stream then print token else ret tt);;
      ret (Some token, PromptSuspended print_stream rest)
  | None =>
      (if print_stream then print newline else ret tt);;
      ret (None, PromptFinished)
  end.

(** [next(gen)] for the generator of [prompt_stream]. *)
Definition prompt_next (g : prompt_generator)
  : M (option string * prompt_generator) :=
  match g with
  | PromptCreated prompt print_stream use_memory =>
      msgs ← temp_memory prompt use_memory;
      stream ← llm_stream msgs;
      prompt_resume print_stream stream
  | PromptSuspended print_stream stream =>
      prompt_resume print_stream stream
  | PromptFinished => ret (None, PromptFinished)
  end.

Definition prompt_stream (prompt : string) (print_stream use_memory : bool)
  : M (option prompt_generator) :=
  let gen := PromptCreated prompt print_stream use_memory in
  if print_stream then
    drain prompt_next prompt_pending gen;;
    ret None
  else ret (Some gen).

Definition clear_memory : M unit :=
  sp ← get_self_system_prompt;
  l ← list_new [system_turn sp];
  set_self_memory l.

(** [set_memory] keeps the caller's list object itself. *)
Definition set_memory (memory : ref) : M unit := set_self_memory memory.

(** [get_memory] hands out the session's list object itself. *)
Definition get_memory : M ref := get_self_memory.

Definition modify_system_prompt (system_prompt : string) : M unit :=
  m ← get_self_memory;
  list_setitem m 0 (system_turn system_prompt).

End Session.

(** ** The presentation adapter, [gui.py] *)

(** The [for msg in history:] loop of [_memory_to_chatbot] with its two
    locals. *)
Fixpoint memory_to_chatbot_loop (history : list Turn)
         (pairs : list (string * string)) (current_user : option string)
  : list (string * string) :=
  match history with
  | [] => pairs
  | msg :: rest =>
      if String.eqb (role msg) "user" then
        memory_to_chatbot_loop rest pairs (Some (content msg))
      else if String.eqb (role msg) "assistant" then
        match current_user with
        | Some u =>
            memory_to_chatbot_loop rest (pairs ++ [(u, content msg)]) None
        | None => memory_to_chatbot_loop rest pairs current_user
        end
      else memory_to_chatbot_loop rest pairs current_user
  end.

Definition _memory_to_chatbot (history : list Turn) : list (string * string) :=
  memory_to_chatbot_loop history [] None.

(** The first line of [Interface.render]. *)
Definition initial_history : M (list (string * string)) :=
  m ← get_memory;
  history ← list_read m;
  ret (_memory_to_chatbot history).

(** ** Notions used to state the properties *)

(** The text that a chunk carries: its [delta]'s [content], empty when
    either key is missing. *)
Definition chunk_text (c : Chunk) : string :=
  default "" (default ∅ (choice0_delta c) !! "content").

(** The non-empty content fragments of a backend stream, in delivery
    order. *)
Definition delivered_fragments (stream : list Chunk) : list string :=
  List.filter truthy (List.map chunk_text stream).

Definition concat_fragments (tokens : list string) : string :=
  fold_right String.append "" tokens.

(** The fragments of a stream in the words of the specification: the
    content texts of its chunks, in delivery order, without those that
    are the empty string. *)
Definition nonempty_fragments (stream : list Chunk) : list string :=
  filter (fun s : string => s <> "") (chunk_text <$> stream).

(** What is left of a stream once [k] fragments were yielded: the chunks
    after the one that carries the [k]-th non-empty fragment. *)
Fixpoint unread (stream : list Chunk) (k : nat) {struct stream} : list Chunk :=
  match k, stream with
  | O, _ => stream
  | S _, [] => []
  | S k', c :: rest =>
      if truthy (chunk_text c) then unread rest k' else unread rest k
  end.

(** The chunk carries a [delta], as the backend interface has it for
    every chunk. *)
Definition has_delta (c : Chunk) : bool :=
  match choice0_delta c with
  | Some _ => true
  | None => false
  end.


(** The message list of an ephemeral request made in state [w]. *)
Definition ephemeral_messages (w : world) (prompt : string)
           (use_memory : bool) : list Turn :=
  if use_memory then memory_of w ++ [user_turn prompt]
  else [system_turn (self_system_prompt w); user_turn prompt].

(** The state after [self.memory.append(t)]. *)
Definition appended (t : Turn) (w : world) : world :=
  store (self_memory w) (memory_of w ++ [t]) w.

(** The state after the optional [print] of a generator. *)
Definition echoed (print_stream : bool) (s : string) (w : world) : world :=
  if print_stream then printed s w else w.

(** The state after the optional [print]s of a run of fragments. *)
Definition echoed_all (print_stream : bool) (ss : list string) (w : world)
  : world :=
  fold_left (fun w' s => echoed print_stream s w') ss w.

(** The session's reference is allocated and the allocator is ahead of
    every allocated reference. *)
Definition wf (w : world) : Prop :=
  is_Some (heap w !! self_memory w) /\
  forall l, is_Some (heap w !! l) -> l < next_ref w.

(** Neither the store nor the fields of [self] differ. *)
Definition memory_unchanged (w w' : world) : Prop :=
  heap w' = heap w /\ self_memory w' = self_memory w /\
  self_system_prompt w' = self_system_prompt w /\ next_ref w' = next_ref w.

(** A computation that never touches the store or the fields of [self]. *)
Definition read_only {A} (m : M A) : Prop :=
  forall w, memory_unchanged w (snd (m w)).

(** *** Display pairs *)

Definition is_user (t : Turn) : bool := String.eqb (role t) "user".
Definition is_assistant (t : Turn) : bool := String.eqb (role t) "assistant".

(** The pairing in the words of the specification: every assistant turn is
    paired with the most recent preceding user turn that is not yet
    paired.  [unpaired] holds the user turns that wait for an answer, the
    most recent first. *)
Fixpoint pairs_by_most_recent_unpaired (history : list Turn)
         (unpaired : list string) : list (string * string) :=
  match history with
  | [] => []
  | msg :: rest =>
      if is_user msg then
        pairs_by_most_recent_unpaired rest (content msg :: unpaired)
      else if is_assistant msg then
        match unpaired with
        | u :: older =>
            (u, content msg) :: pairs_by_most_recent_unpaired rest older
        | [] => pairs_by_most_recent_unpaired rest []
        end
      else pairs_by_most_recent_unpaired rest unpaired
  end.

(** The user and assistant turns of a history, in order. *)
Definition dialogue (history : list Turn) : list Turn :=
  List.filter (fun t => is_user t || is_assistant t) history.

(** One pair for every assistant turn that directly follows a user
    turn. *)
Fixpoint answered_pairs (turns : list Turn) : list (string * string) :=
  match turns with
  | [] => []
  | u :: rest =>
      match rest with
      | [] => []
      | a :: _ =>
          if is_user u && is_assistant a
          then (content u, content a) :: answered_pairs rest
          else answered_pairs rest
      end
  end.

(** The turn that [current_user] stands for. *)
Definition pending (current_user : option string) : list Turn :=
  match current_user with
  | Some u => [user_turn u]
  | None => []
  end.

(** A conversation as [chat] builds it: question and answer in turn. *)
Definition exchanges (qa : list (string * string)) : list Turn :=
  flat_map (fun x => [user_turn (fst x); assistant_turn (snd x)]) qa.

(** *** Clients *)

(** A caller that appends to the list it got from [get_memory] and then
    asks for the history again. *)
Definition append_to_snapshot (x : Turn) : M (list Turn) :=
  l ← get_memory;
  list_append l x;;
  l' ← get_memory;
  list_read l'.

(** A caller that overwrites an element of the list it got from
    [get_memory] and then asks for the history again. *)
Definition overwrite_snapshot (i : nat) (x : Turn) : M (list Turn) :=
  l ← get_memory;
  list_setitem l i x;;
  l' ← get_memory;
  list_read l'.

(** A caller that creates a chat stream, edits the system prompt, and only
    then pulls for the first time. *)
Definition edit_then_pull_chat (llm : Llama) (p t : string)
  : M (list string * chat_generator) :=
  gen ← chat_stream llm p false;
  modify_system_prompt t;;
  match gen with
  | Some g => pull (chat_next llm) 1 g
  | None => ret ([], ChatFinished)
  end.

(** The same caller with an ephemeral stream over the history. *)
Definition edit_then_pull_prompt (llm : Llama) (p t : string)
  : M (list string * prompt_generator) :=
  gen ← prompt_stream llm p false true;
  modify_system_prompt t;;
  match gen with
  | Some g => pull (prompt_next llm) 1 g
  | None => ret ([], PromptFinished)
  end.

(** ** The streaming callback of [Interface.render]

    [chat_fn(message, history)] is a generator over the generator of
    [chat_stream(message)]; the local [partial] holds the text so far and
    [history] is not used. *)

Inductive chat_fn_generator : Type :=
| FnCreated (message : string)
| FnSuspended (partial : string) (gen : chat_generator)
| FnFinished.

Section Callback.

Variable llm : Llama.

(** One round of [for chunk in gen: partial += chunk; yield partial]. *)
Definition chat_fn_resume (partial : string) (gen : chat_generator)
  : M (option string * chat_fn_generator) :=
  r ← chat_next llm gen;
  match r with
  | (Some chunk, gen') =>
      let partial' := partial +:+ chunk in
      ret (Some partial', FnSuspended partial' gen')
  | (None, _) => ret (None, FnFinished)
  end.

(** [next] for the generator of [chat_fn].  [chat_stream] is called with
    [print_stream] left at [False], so it hands back its generator (the
    other branch is never taken). *)
Definition chat_fn_next (g : chat_fn_generator)
  : M (option string * chat_fn_generator) :=
  match g with
  | FnCreated message =>
      gen ← chat_stream llm message false;
      match gen with
      | Some gen' => chat_fn_resume "" gen'
      | None => ret (None, FnFinished)
      end
  | FnSuspended partial gen => chat_fn_resume partial gen
  | FnFinished => ret (None, FnFinished)
  end.

(** A caller that chats through a list of prompts, one after the other. *)
Fixpoint chats (prompts : list string) : M (list string) :=
  match prompts with
  | [] => ret []
  | p :: rest =>
      r ← chat llm p;
      rs ← chats rest;
      ret (r :: rs)
  end.

(** The answers of the backend to a run of prompts that starts from
    [history], each asked with all that came before. *)
Fixpoint replies (history : list Turn) (prompts : list string) : list string :=
  match prompts with
  | [] => []
  | p :: rest =>
      match create_chat_completion llm (history ++ [user_turn p]) with
      | Ret R =>
          R :: replies (history ++ [user_turn p; assistant_turn R]) rest
      | Raise _ => []
      end
  end.

(** A backend whose blocking call never raises. *)
Definition responsive : Prop :=
  forall msgs, exists R, create_chat_completion llm msgs = Ret R.

End Callback.

(** The running concatenations of a run of fragments, from [partial] on. *)
Fixpoint snapshots (partial : string) (tokens : list string) : list string :=
  match tokens with
  | [] => []
  | t :: rest => (partial +:+ t) :: snapshots (partial +:+ t) rest
  end.

(** Element 0 of a history has the role ["system"]. *)
Definition starts_with_system (history : list Turn) : bool :=
  match history with
  | t :: _ => String.eqb (role t) "system"
  | [] => false
  end.

(** From [w] to [w'] the session kept its fields, only appended to its
    history and touched no other list object. *)
Definition grows (w w' : world) : Prop :=
  self_memory w' = self_memory w /\
  self_system_prompt w' = self_system_prompt w /\
  (exists suffix, memory_of w' = memory_of w ++ suffix) /\
  forall l, l <> self_memory w -> deref w' l = deref w l.

(** A caller that replaces the history by a new, empty list. *)
Definition set_empty_memory : M unit :=
  l ← list_new [];
  set_memory l.

(** ** Example backends and streams *)

Definition content_chunk (s : string) : Chunk :=
  mkChunk (Some {[ "content" := s ]}).
Definition role_chunk : Chunk := mkChunk (Some {[ "role" := "assistant" ]}).
Definition empty_delta_chunk : Chunk := mkChunk (Some ∅).
Definition no_delta_chunk : Chunk := mkChunk None.

(** A backend that answers with the content of the first message. *)
Definition parrot : Llama :=
  mkLlama
    (fun msgs => Ret (default "" (content <$> head msgs)))
    (fun msgs => Ret [role_chunk;
                      content_chunk (default "" (content <$> head msgs));
                      empty_delta_chunk]).

(** A backend that streams ["He"], [""], ["llo"]. *)
Definition hello : Llama :=
  mkLlama
    (fun _ => Ret "Hello")
    (fun _ => Ret [content_chunk "He"; content_chunk ""; content_chunk "llo"]).

(** A backend that is down. *)
Definition offline : Llama :=
  mkLlama
    (fun _ => Raise (BackendFailure "offline"))
    (fun _ => Raise (BackendFailure "offline")).

(** A backend that is busy until the conversation has three messages. *)
Definition flaky : Llama :=
  mkLlama
    (fun msgs => if (length msgs <? 3)%nat
                 then Raise (BackendFailure "busy") else Ret "ok")
    (fun msgs => if (length msgs <? 3)%nat
                 then Raise (BackendFailure "busy")
                 else Ret [content_chunk "ok"]).

(** A backend that streams one fragment and then a chunk without
    [delta]. *)
Definition broken : Llama :=
  mkLlama
    (fun _ => Ret "He")
    (fun _ => Ret [content_chunk "He"; no_delta_chunk; content_chunk "llo"]).

(** * Properties *)

(** ** The store *)

Lemma deref_store_eq l xs w : deref (store l xs w) l = xs.
Proof. unfold deref, store, set_heap; simpl. by rewrite lookup_insert_eq. Qed.

Lemma deref_store_ne l l' xs w :
  l <> l' -> deref (store l xs w) l' = deref w l'.
Proof.
  intros Hne. unfold deref, store, set_heap; simpl.
  by rewrite lookup_insert_ne.
Qed.

Lemma memory_of_appended t w : memory_of (appended t w) = memory_of w ++ [t].
Proof. unfold memory_of, appended. simpl. apply deref_store_eq. Qed.

Lemma memory_of_logged msgs b w : memory_of (logged msgs b w) = memory_of w.
Proof. reflexivity. Qed.

Lemma memory_of_init sp : memory_of (init sp) = [system_turn sp].
Proof. reflexivity. Qed.

(** ** Running monadic code *)

Lemma bind_run {A B} (m : M A) (k : A -> M B) w :
  (m ≫= k) w = match m w with
               | (Ret a, w') => k a w'
               | (Raise e, w') => (Raise e, w')
               end.
Proof. reflexivity. Qed.

Ltac run :=
  cbv [mbind mret M_bind M_ret bind ret raise lift get_self_memory
       get_self_system_prompt set_self_memory list_read list_append
       log_request print];
  cbn [fst snd].

(** ** Blocking chat *)

Section Blocking.

Variable llm : Llama.

(** What [chat] does, whatever the backend answers. *)
Lemma chat_run p w :
  chat llm p w =
  let w1 := logged (memory_of w ++ [user_turn p]) false
                   (appended (user_turn p) w) in
  match create_chat_completion llm (memory_of w ++ [user_turn p]) with
  | Ret message => (Ret message, appended (assistant_turn message) w1)
  | Raise e => (Raise e, w1)
  end.
Proof.
  unfold chat, llm_complete. run.
  change (store (self_memory w) (deref w (self_memory w) ++ [user_turn p]) w)
    with (appended (user_turn p) w).
  change (deref (appended (user_turn p) w)
                (self_memory (appended (user_turn p) w)))
    with (memory_of (appended (user_turn p) w)).
  rewrite memory_of_appended.
  destruct (create_chat_completion llm (memory_of w ++ [user_turn p]));
    reflexivity.
Qed.

Lemma prompt_run p use_memory w :
  prompt llm p use_memory w =
  (create_chat_completion llm (ephemeral_messages w p use_memory),
   logged (ephemeral_messages w p use_memory) false w).
Proof.
  unfold prompt, temp_memory, llm_complete, ephemeral_messages.
  destruct use_memory; run; fold (memory_of w);
    match goal with
    | |- context [create_chat_completion llm ?msgs] =>
        destruct (create_chat_completion llm msgs)
    end; reflexivity.
Qed.

Lemma modify_system_prompt_run t w :
  modify_system_prompt t w =
  match memory_of w with
  | [] => (Raise IndexError, w)
  | _ :: rest => (Ret tt, store (self_memory w) (system_turn t :: rest) w)
  end.
Proof.
  unfold modify_system_prompt. run. unfold list_setitem.
  fold (memory_of w). destruct (memory_of w); reflexivity.
Qed.

End Blocking.

(** C4.  On a freshly constructed session with system prompt [sys],
    [chat p] (in particular [chat "hi"]) returns the text [R] that the
    backend answers for the messages [[{system,sys},{user,p}]], sent once,
    and memory is then [[{system,sys},{user,p},{assistant,R}]]. *)
Theorem chat_fresh_session (llm : Llama) (sys p R : string) :
  create_chat_completion llm [system_turn sys; user_turn p] = Ret R ->
  exists w',
    chat llm p (init sys) = (Ret R, w') /\
    memory_of w' = [system_turn sys; user_turn p; assistant_turn R] /\
    requests w' = [([system_turn sys; user_turn p], false)].
Proof.
  intros HR. rewrite chat_run. rewrite memory_of_init. simpl.
  rewrite HR. eexists. split; [reflexivity|]. split; [|reflexivity].
  rewrite memory_of_appended, memory_of_logged, memory_of_appended.
  reflexivity.
Qed.

Lemma chat_fresh_session_witness :
  exists w',
    chat hello "hi" (init "S") = (Ret "Hello", w') /\
    memory_of w' =
      [system_turn "S"; user_turn "hi"; assistant_turn "Hello"] /\
    requests w' = [([system_turn "S"; user_turn "hi"], false)].
Proof. apply (chat_fresh_session hello "S" "hi" "Hello"). reflexivity. Defined.

(** C6.  When the backend raises during [chat p], the same exception
    reaches the caller after a single backend call, and memory is the
    memory before the call with [{user,p}] appended: the user turn is not
    rolled back and no assistant turn is appended. *)
Theorem chat_backend_failure (llm : Llama) (w : world) (p : string) (e : exn) :
  create_chat_completion llm (memory_of w ++ [user_turn p]) = Raise e ->
  exists w',
    chat llm p w = (Raise e, w') /\
    memory_of w' = memory_of w ++ [user_turn p] /\
    requests w' = requests w ++ [(memory_of w ++ [user_turn p], false)].
Proof.
  intros He. rewrite chat_run. simpl. rewrite He.
  eexists. split; [reflexivity|]. split; [|reflexivity].
  rewrite memory_of_logged. apply memory_of_appended.
Qed.

Lemma chat_backend_failure_witness :
  exists w',
    chat offline "hi" (init "S") = (Raise (BackendFailure "offline"), w') /\
    memory_of w' = memory_of (init "S") ++ [user_turn "hi"] /\
    requests w' =
      requests (init "S") ++ [(memory_of (init "S") ++ [user_turn "hi"], false)].
Proof.
  apply (chat_backend_failure offline (init "S") "hi" (BackendFailure "offline")).
  reflexivity.
Defined.

(** C7.  On a history that has an element 0, [modify_system_prompt t]
    replaces that element with [{system,t}] and changes nothing else: the
    other elements, the other list objects, the [memory] field and the
    [system_prompt] field stay; a later [prompt m (use_memory=False)]
    sends the backend the old [system_prompt] field, not [t]. *)
Theorem modify_system_prompt_keeps_field (llm : Llama) (w : world)
        (t : string) (t0 : Turn) (rest : list Turn) :
  memory_of w = t0 :: rest ->
  exists w',
    modify_system_prompt t w = (Ret tt, w') /\
    memory_of w' = system_turn t :: rest /\
    self_system_prompt w' = self_system_prompt w /\
    self_memory w' = self_memory w /\
    (forall l, l <> self_memory w -> deref w' l = deref w l) /\
    requests w' = requests w /\
    forall m,
      prompt llm m false w' =
      (create_chat_completion llm
         [system_turn (self_system_prompt w); user_turn m],
       logged [system_turn (self_system_prompt w); user_turn m] false w').
Proof.
  intros Hmem. rewrite modify_system_prompt_run, Hmem.
  eexists. split; [reflexivity|].
  split; [apply deref_store_eq|].
  repeat (split; [reflexivity|]).
  split; [intros l Hl; apply deref_store_ne; congruence|].
  split; [reflexivity|].
  intros m. rewrite prompt_run. reflexivity.
Qed.

Lemma modify_system_prompt_keeps_field_witness :
  exists w',
    modify_system_prompt "New" (init "Old") = (Ret tt, w') /\
    memory_of w' = system_turn "New" :: [] /\
    self_system_prompt w' = self_system_prompt (init "Old") /\
    self_memory w' = self_memory (init "Old") /\
    (forall l, l <> self_memory (init "Old") ->
               deref w' l = deref (init "Old") l) /\
    requests w' = requests (init "Old") /\
    forall m,
      prompt parrot m false w' =
      (create_chat_completion parrot
         [system_turn (self_system_prompt (init "Old")); user_turn m],
       logged [system_turn (self_system_prompt (init "Old")); user_turn m]
              false w').
Proof.
  apply (modify_system_prompt_keeps_field parrot (init "Old") "New"
           (system_turn "Old") []).
  reflexivity.
Defined.

(** C2, as the code has it: [get_memory] hands out the session's own list
    object and leaves the state alone; what a caller does to the returned
    list is done to the history, and the next [get_memory] shows it. *)
Theorem get_memory_is_alias (w : world) :
  get_memory w = (Ret (self_memory w), w) /\
  (forall x, fst (append_to_snapshot x w) = Ret (memory_of w ++ [x])) /\
  (forall i x,
      fst (overwrite_snapshot i x w) =
      if (i <? length (memory_of w))%nat
      then Ret (<[i := x]> (memory_of w))
      else Raise IndexError).
Proof.
  split; [reflexivity|]. split.
  - intros x. unfold append_to_snapshot, get_memory. run.
    f_equal. apply deref_store_eq.
  - intros i x. unfold overwrite_snapshot, get_memory. run.
    unfold list_setitem. fold (memory_of w).
    destruct (i <? length (memory_of w))%nat; [|reflexivity].
    simpl. f_equal. apply deref_store_eq.
Qed.

(** C2 as stated fails: after the caller appends to the list returned by
    [get_memory], the next [get_memory] no longer shows the original
    history. *)
Lemma get_memory_copy_refuted :
  fst (append_to_snapshot (user_turn "injected") (init "S")) =
    Ret [system_turn "S"; user_turn "injected"] /\
  fst (append_to_snapshot (user_turn "injected") (init "S")) <>
    Ret (memory_of (init "S")).
Proof. split; [reflexivity|]. vm_compute. discriminate. Qed.

(** ** Strings *)

Lemma string_app_nil_r (s : string) : s +:+ "" = s.
Proof.
  induction s as [|a s IH]; [reflexivity|].
  change (String a (s +:+ "") = String a s). by rewrite IH.
Qed.

Lemma string_app_assoc (s1 s2 s3 : string) :
  (s1 +:+ s2) +:+ s3 = s1 +:+ (s2 +:+ s3).
Proof.
  induction s1 as [|a s1 IH]; [reflexivity|].
  change (String a ((s1 +:+ s2) +:+ s3) = String a (s1 +:+ (s2 +:+ s3))).
  by rewrite IH.
Qed.

(** ** The loops of the two generators *)

Lemma delivered_fragments_cons c rest :
  delivered_fragments (c :: rest) =
  if truthy (chunk_text c) then chunk_text c :: delivered_fragments rest
  else delivered_fragments rest.
Proof. reflexivity. Qed.

Lemma chat_loop_cons c rest fm :
  has_delta c = true ->
  chat_loop (c :: rest) fm =
  if truthy (chunk_text c)
  then Ret (Some (chunk_text c, rest), fm +:+ chunk_text c)
  else chat_loop rest fm.
Proof. destruct c as [[delta|]]; [reflexivity | discriminate]. Qed.

Lemma chat_loop_no_delta rest fm :
  chat_loop (no_delta_chunk :: rest) fm = Raise (KeyError "delta").
Proof. reflexivity. Qed.

Lemma prompt_loop_cons c rest :
  prompt_loop (c :: rest) =
  if truthy (chunk_text c) then Ret (Some (chunk_text c, rest))
  else prompt_loop rest.
Proof. reflexivity. Qed.



(** ** One step of a generator *)

Section Streaming.

Variable llm : Llama.

Lemma chat_resume_run ps stream fm w :
  chat_resume ps stream fm w =
  match chat_loop stream fm with
  | Ret (Some (token, rest), fm') =>
      (Ret (Some token, ChatSuspended ps rest fm'), echoed ps token w)
  | Ret (None, fm') =>
      (Ret (None, ChatFinished),
       appended (assistant_turn fm') (echoed ps newline w))
  | Raise e => (Raise e, w)
  end.
Proof.
  unfold chat_resume. run.
  destruct (chat_loop stream fm) as [[[[token rest]|] fm']|e];
    destruct ps; reflexivity.
Qed.

Lemma chat_next_created_run p ps w :
  chat_next llm (ChatCreated p ps) w =
  let w1 := logged (memory_of w ++ [user_turn p]) true
                   (appended (user_turn p) w) in
  match create_chat_completion_stream llm (memory_of w ++ [user_turn p]) with
  | Ret stream => chat_resume ps stream "" w1
  | Raise e => (Raise e, w1)
  end.
Proof.
  unfold chat_next, llm_stream. run.
  change (store (self_memory w) (deref w (self_memory w) ++ [user_turn p]) w)
    with (appended (user_turn p) w).
  change (deref (appended (user_turn p) w)
                (self_memory (appended (user_turn p) w)))
    with (memory_of (appended (user_turn p) w)).
  rewrite memory_of_appended.
  destruct (create_chat_completion_stream llm (memory_of w ++ [user_turn p]));
    reflexivity.
Qed.

Lemma prompt_resume_run ps stream w :
  prompt_resume ps stream w =
  match prompt_loop stream with
  | Ret (Some (token, rest)) =>
      (Ret (Some token, PromptSuspended ps rest), echoed ps token w)
  | Ret None => (Ret (None, PromptFinished), echoed ps newline w)
  | Raise e => (Raise e, w)
  end.
Proof.
  unfold prompt_resume. run.
  destruct (prompt_loop stream) as [[[token rest]|]|e];
    destruct ps; reflexivity.
Qed.

Lemma prompt_next_created_run p ps use_memory w :
  prompt_next llm (PromptCreated p ps use_memory) w =
  let w1 := logged (ephemeral_messages w p use_memory) true w in
  match create_chat_completion_stream llm
          (ephemeral_messages w p use_memory) with
  | Ret stream => prompt_resume ps stream w1
  | Raise e => (Raise e, w1)
  end.
Proof.
  unfold prompt_next, temp_memory, llm_stream, ephemeral_messages.
  destruct use_memory; run; fold (memory_of w);
    match goal with
    | |- context [create_chat_completion_stream llm ?msgs] =>
        destruct (create_chat_completion_stream llm msgs)
    end; reflexivity.
Qed.

(** A chunk without text is passed over inside one [next]. *)
Lemma chat_next_skip ps c rest fm w :
  has_delta c = true -> truthy (chunk_text c) = false ->
  chat_next llm (ChatSuspended ps (c :: rest) fm) w =
  chat_next llm (ChatSuspended ps rest fm) w.
Proof.
  intros Hd Ht. simpl. rewrite !chat_resume_run, chat_loop_cons, Ht; auto.
Qed.

Lemma chat_next_yield ps c rest fm w :
  has_delta c = true -> truthy (chunk_text c) = true ->
  chat_next llm (ChatSuspended ps (c :: rest) fm) w =
  (Ret (Some (chunk_text c),
        ChatSuspended ps rest (fm +:+ chunk_text c)),
   echoed ps (chunk_text c) w).
Proof.
  intros Hd Ht. simpl. rewrite chat_resume_run, chat_loop_cons, Ht; auto.
Qed.

Lemma chat_next_end ps fm w :
  chat_next llm (ChatSuspended ps [] fm) w =
  (Ret (None, ChatFinished),
   appended (assistant_turn fm) (echoed ps newline w)).
Proof. simpl. rewrite chat_resume_run. reflexivity. Qed.

(** The chat generator raises [KeyError] at a chunk without [delta]. *)
Lemma chat_next_no_delta ps rest fm w :
  chat_next llm (ChatSuspended ps (no_delta_chunk :: rest) fm) w =
  (Raise (KeyError "delta"), w).
Proof. simpl. rewrite chat_resume_run. reflexivity. Qed.

Lemma prompt_next_skip ps c rest w :
  truthy (chunk_text c) = false ->
  prompt_next llm (PromptSuspended ps (c :: rest)) w =
  prompt_next llm (PromptSuspended ps rest) w.
Proof.
  intros Ht. simpl. rewrite !prompt_resume_run, prompt_loop_cons, Ht; auto.
Qed.

Lemma prompt_next_yield ps c rest w :
  truthy (chunk_text c) = true ->
  prompt_next llm (PromptSuspended ps (c :: rest)) w =
  (Ret (Some (chunk_text c), PromptSuspended ps rest),
   echoed ps (chunk_text c) w).
Proof.
  intros Ht. simpl. rewrite prompt_resume_run, prompt_loop_cons, Ht; auto.
Qed.

Lemma prompt_next_end ps w :
  prompt_next llm (PromptSuspended ps []) w =
  (Ret (None, PromptFinished), echoed ps newline w).
Proof. simpl. rewrite prompt_resume_run. reflexivity. Qed.

(** ** A consumer that pulls [k] times *)

Lemma pull_step {G} (next : G -> M (option string * G)) k g w :
  pull next (S k) g w =
  match next g w with
  | (Ret (Some token, g'), w') =>
      match pull next k g' w' with
      | (Ret r, w'') => (Ret (token :: fst r, snd r), w'')
      | (Raise e, w'') => (Raise e, w'')
      end
  | (Ret (None, g'), w') => (Ret ([], g'), w')
  | (Raise e, w') => (Raise e, w')
  end.
Proof.
  simpl. run. destruct (next g w) as [[[[token|] g']|e] w']; reflexivity.
Qed.

(** Pulling on a suspended chat generator: while fragments are left the
    state does not change at all; the pull that finds the stream
    exhausted appends the assistant turn. *)
Lemma pull_chat_suspended stream :
  forallb has_delta stream = true ->
  forall k fm w,
    pull (chat_next llm) k (ChatSuspended false stream fm) w =
    let tokens := delivered_fragments stream in
    if (k <=? length tokens)%nat
    then (Ret (take k tokens,
               ChatSuspended false (unread stream k)
                             (fm +:+ concat_fragments (take k tokens))),
          w)
    else (Ret (tokens, ChatFinished),
          appended (assistant_turn (fm +:+ concat_fragments tokens)) w).
Proof.
  induction stream as [|c rest IH]; intros Hwf k fm w.
  - destruct k as [|k].
    + simpl. unfold concat_fragments; simpl. by rewrite string_app_nil_r.
    + rewrite pull_step, chat_next_end. simpl.
      unfold concat_fragments; simpl. by rewrite string_app_nil_r.
  - simpl in Hwf. apply andb_true_iff in Hwf as [Hc Hrest].
    destruct k as [|k].
    + simpl. unfold concat_fragments; simpl. by rewrite string_app_nil_r.
    + rewrite pull_step. cbv zeta. rewrite delivered_fragments_cons.
      destruct (truthy (chunk_text c)) eqn:Ht.
      * rewrite chat_next_yield by assumption. simpl echoed.
        rewrite (IH Hrest k). cbv zeta. simpl length. simpl unread.
        rewrite Ht.
        change (S k <=? S (length (delivered_fragments rest)))%nat
          with (k <=? length (delivered_fragments rest))%nat.
        destruct (k <=? length (delivered_fragments rest))%nat; simpl.
        -- unfold concat_fragments; simpl.
           fold (concat_fragments (take k (delivered_fragments rest))).
           by rewrite string_app_assoc.
        -- unfold concat_fragments; simpl.
           fold (concat_fragments (delivered_fragments rest)).
           by rewrite string_app_assoc.
      * rewrite chat_next_skip by assumption.
        rewrite <- pull_step. rewrite (IH Hrest (S k)). cbv zeta.
        simpl unread. rewrite Ht. reflexivity.
Qed.

Lemma pull_prompt_suspended stream :
  forall k w,
    pull (prompt_next llm) k (PromptSuspended false stream) w =
    let tokens := delivered_fragments stream in
    if (k <=? length tokens)%nat
    then (Ret (take k tokens, PromptSuspended false (unread stream k)), w)
    else (Ret (tokens, PromptFinished), w).
Proof.
  induction stream as [|c rest IH]; intros k w.
  - destruct k as [|k]; [reflexivity|].
    rewrite pull_step, prompt_next_end. reflexivity.
  - destruct k as [|k]; [reflexivity|].
    rewrite pull_step. cbv zeta. rewrite delivered_fragments_cons.
    destruct (truthy (chunk_text c)) eqn:Ht.
    + rewrite prompt_next_yield by assumption. simpl echoed.
      rewrite (IH k). cbv zeta. simpl length. simpl unread. rewrite Ht.
      change (S k <=? S (length (delivered_fragments rest)))%nat
        with (k <=? length (delivered_fragments rest))%nat.
      destruct (k <=? length (delivered_fragments rest))%nat; reflexivity.
    + rewrite prompt_next_skip by assumption.
      rewrite <- pull_step. rewrite (IH (S k)). cbv zeta.
      simpl unread. rewrite Ht. reflexivity.
Qed.

(** The first pull starts the generator: it is here that the user turn
    is appended and the backend is called. *)
Lemma pull_chat_created p stream k w :
  create_chat_completion_stream llm (memory_of w ++ [user_turn p])
    = Ret stream ->
  pull (chat_next llm) (S k) (ChatCreated p false) w =
  pull (chat_next llm) (S k) (ChatSuspended false stream "")
       (logged (memory_of w ++ [user_turn p]) true
               (appended (user_turn p) w)).
Proof.
  intros Hs. rewrite !pull_step, chat_next_created_run. cbv zeta.
  rewrite Hs. reflexivity.
Qed.

Lemma pull_prompt_created p use_memory stream k w :
  create_chat_completion_stream llm (ephemeral_messages w p use_memory)
    = Ret stream ->
  pull (prompt_next llm) (S k) (PromptCreated p false use_memory) w =
  pull (prompt_next llm) (S k) (PromptSuspended false stream)
       (logged (ephemeral_messages w p use_memory) true w).
Proof.
  intros Hs. rewrite !pull_step, prompt_next_created_run. cbv zeta.
  rewrite Hs. reflexivity.
Qed.

End Streaming.

Lemma take_all {A} (l : list A) k : length l < k -> take k l = l.
Proof. intros Hk. apply take_ge. lia. Qed.

Lemma delivered_fragments_truthy stream token :
  In token (delivered_fragments stream) -> token <> "".
Proof.
  unfold delivered_fragments. intros [_ Ht]%filter_In ->. discriminate.
Qed.

(** C1.  Let the backend open a stream of well-formed chunks for
    [chat_stream p].  The call itself returns the generator.  A consumer
    that pulls until the generator stops has received the delivered
    fragments, and memory has grown by the user turn and by one assistant
    turn whose content is the concatenation of the fragments; a finished
    generator does nothing more.  A consumer that stops earlier, after
    [k >= 1] pulls that all yielded, leaves memory as it was just after
    the user turn was appended; one that never pulls leaves memory as it
    was before the call. *)
Theorem chat_stream_commits_on_exhaustion
        (llm : Llama) (w : world) (p : string) (stream : list Chunk) :
  create_chat_completion_stream llm (memory_of w ++ [user_turn p])
    = Ret stream ->
  forallb has_delta stream = true ->
  let tokens := delivered_fragments stream in
  chat_stream llm p false w = (Ret (Some (ChatCreated p false)), w) /\
  (forall k, length tokens < k ->
     exists w',
       pull (chat_next llm) k (ChatCreated p false) w
         = (Ret (tokens, ChatFinished), w') /\
       memory_of w' =
         memory_of w ++
           [user_turn p; assistant_turn (concat_fragments tokens)] /\
       chat_next llm ChatFinished w' = (Ret (None, ChatFinished), w')) /\
  (forall k, 0 < k <= length tokens ->
     exists rest fm w',
       pull (chat_next llm) k (ChatCreated p false) w
         = (Ret (take k tokens, ChatSuspended false rest fm), w') /\
       memory_of w' = memory_of w ++ [user_turn p]) /\
  pull (chat_next llm) 0 (ChatCreated p false) w
    = (Ret ([], ChatCreated p false), w).
Proof.
  intros Hs Hwf tokens. split; [reflexivity|].
  split; [|split; [|reflexivity]].
  - intros k Hk. destruct k as [|k]; [lia|].
    rewrite (pull_chat_created llm p stream) by assumption.
    rewrite pull_chat_suspended by assumption. cbv zeta.
    fold tokens. destruct (Nat.leb_spec (S k) (length tokens)); [lia|].
    eexists. split; [reflexivity|]. split; [|reflexivity].
    rewrite memory_of_appended, memory_of_logged, memory_of_appended.
    rewrite <- app_assoc. reflexivity.
  - intros k Hk. destruct k as [|k]; [lia|].
    rewrite (pull_chat_created llm p stream) by assumption.
    rewrite pull_chat_suspended by assumption. cbv zeta.
    fold tokens. destruct (Nat.leb_spec (S k) (length tokens)); [|lia].
    do 3 eexists. split; [reflexivity|].
    rewrite memory_of_logged. apply memory_of_appended.
Qed.

Lemma chat_stream_commits_on_exhaustion_witness :
  let stream := [content_chunk "He"; content_chunk ""; content_chunk "llo"] in
  let w := init "S" in
  let tokens := delivered_fragments stream in
  chat_stream hello "hi" false w = (Ret (Some (ChatCreated "hi" false)), w) /\
  (forall k, length tokens < k ->
     exists w',
       pull (chat_next hello) k (ChatCreated "hi" false) w
         = (Ret (tokens, ChatFinished), w') /\
       memory_of w' =
         memory_of w ++
           [user_turn "hi"; assistant_turn (concat_fragments tokens)] /\
       chat_next hello ChatFinished w' = (Ret (None, ChatFinished), w')) /\
  (forall k, 0 < k <= length tokens ->
     exists rest fm w',
       pull (chat_next hello) k (ChatCreated "hi" false) w
         = (Ret (take k tokens, ChatSuspended false rest fm), w') /\
       memory_of w' = memory_of w ++ [user_turn "hi"]) /\
  pull (chat_next hello) 0 (ChatCreated "hi" false) w
    = (Ret ([], ChatCreated "hi" false), w).
Proof.
  apply (chat_stream_commits_on_exhaustion hello (init "S") "hi"
           [content_chunk "He"; content_chunk ""; content_chunk "llo"]);
    reflexivity.
Defined.

Lemma truthy_nonempty (s : string) : truthy s = true <-> s <> "".
Proof. destruct s; simpl; split; (done || congruence). Qed.

(** What the loops keep is what the specification calls the non-empty
    fragments. *)
Lemma delivered_fragments_nonempty stream :
  delivered_fragments stream = nonempty_fragments stream.
Proof.
  unfold nonempty_fragments.
  induction stream as [|c rest IH]; [reflexivity|].
  rewrite delivered_fragments_cons, fmap_cons.
  destruct (truthy (chunk_text c)) eqn:Ht.
  - rewrite filter_cons_True by (by apply truthy_nonempty). by rewrite IH.
  - rewrite filter_cons_False; [assumption|].
    intros Hne. apply truthy_nonempty in Hne. congruence.
Qed.

(** C8.  Every streaming call yields exactly the non-empty content
    fragments that the backend delivers, once each and in delivery order.
    For [prompt_stream], whatever chunks the backend streams for its
    message list, and for [chat_stream], when the chunks all carry a
    [delta]: after [k] pulls the consumer holds the first [k] of those
    fragments, and a consumer that pulls more often than there are
    fragments holds them all and finds the generator stopped.  A text is
    among the fragments exactly when it is not the empty string and is the
    content text of a chunk of the stream; from the backend fragments
    ["He"], [""], ["llo"] these are ["He"], ["llo"]. *)
Theorem streams_yield_delivered_fragments
        (llm : Llama) (w : world) (p : string) (use_memory : bool)
        (chunks : list Chunk) :
  let fragments := nonempty_fragments chunks in
  (create_chat_completion_stream llm (ephemeral_messages w p use_memory)
     = Ret chunks ->
   (forall k, exists g' w',
       pull (prompt_next llm) k (PromptCreated p false use_memory) w
         = (Ret (take k fragments, g'), w')) /\
   (forall k, length fragments < k ->
       exists w',
         pull (prompt_next llm) k (PromptCreated p false use_memory) w
           = (Ret (fragments, PromptFinished), w'))) /\
  (create_chat_completion_stream llm (memory_of w ++ [user_turn p])
     = Ret chunks ->
   forallb has_delta chunks = true ->
   (forall k, exists g' w',
       pull (chat_next llm) k (ChatCreated p false) w
         = (Ret (take k fragments, g'), w')) /\
   (forall k, length fragments < k ->
       exists w',
         pull (chat_next llm) k (ChatCreated p false) w
           = (Ret (fragments, ChatFinished), w'))) /\
  (forall token,
      token ∈ fragments <->
      token <> "" /\ exists c, c ∈ chunks /\ chunk_text c = token) /\
  nonempty_fragments
    [content_chunk "He"; content_chunk ""; content_chunk "llo"]
    = ["He"; "llo"].
Proof.
  cbv zeta. rewrite <- delivered_fragments_nonempty.
  split; [|split; [|split]].
  - intros Hp.
    assert (Hprompt : forall k,
      pull (prompt_next llm) (S k) (PromptCreated p false use_memory) w =
      let w1 := logged (ephemeral_messages w p use_memory) true w in
      let tokens := delivered_fragments chunks in
      if (S k <=? length tokens)%nat
      then (Ret (take (S k) tokens,
                 PromptSuspended false (unread chunks (S k))), w1)
      else (Ret (tokens, PromptFinished), w1)).
    { intros k.
      rewrite (pull_prompt_created llm p use_memory chunks) by assumption.
      by rewrite pull_prompt_suspended. }
    split.
    + intros [|k]; [by do 2 eexists|]. rewrite Hprompt. cbv zeta.
      destruct (Nat.leb_spec (S k) (length (delivered_fragments chunks))).
      * by do 2 eexists.
      * rewrite take_all by assumption. by do 2 eexists.
    + intros [|k] Hk; [lia|]. rewrite Hprompt. cbv zeta.
      destruct (Nat.leb_spec (S k) (length (delivered_fragments chunks)));
        [lia | by eexists].
  - intros Hc Hwf.
    assert (Hchat : forall k,
      pull (chat_next llm) (S k) (ChatCreated p false) w =
      let w1 := logged (memory_of w ++ [user_turn p]) true
                       (appended (user_turn p) w) in
      let tokens := delivered_fragments chunks in
      if (S k <=? length tokens)%nat
      then (Ret (take (S k) tokens,
                 ChatSuspended false (unread chunks (S k))
                   ("" +:+ concat_fragments (take (S k) tokens))), w1)
      else (Ret (tokens, ChatFinished),
            appended (assistant_turn ("" +:+ concat_fragments tokens)) w1)).
    { intros k. rewrite (pull_chat_created llm p chunks) by assumption.
      by rewrite pull_chat_suspended. }
    split.
    + intros [|k]; [by do 2 eexists|]. rewrite Hchat. cbv zeta.
      destruct (Nat.leb_spec (S k) (length (delivered_fragments chunks))).
      * by do 2 eexists.
      * rewrite take_all by assumption. by do 2 eexists.
    + intros [|k] Hk; [lia|]. rewrite Hchat. cbv zeta.
      destruct (Nat.leb_spec (S k) (length (delivered_fragments chunks)));
        [lia | by eexists].
  - intros token. rewrite delivered_fragments_nonempty.
    unfold nonempty_fragments.
    rewrite list_elem_of_filter, list_elem_of_fmap.
    split.
    + intros [Hne (c & -> & Hc)]. eauto.
    + intros [Hne (c & Hc & <-)]. eauto.
  - reflexivity.
Qed.

(** The two halves at work: [prompt_stream] on a stream that holds a
    chunk without [delta], and [chat_stream] on the stream of the
    example. *)
Lemma streams_yield_delivered_fragments_witness :
  ((forall k, exists g' w',
       pull (prompt_next broken) k (PromptCreated "hi" false false) (init "S")
         = (Ret (take k ["He"; "llo"], g'), w')) /\
   (forall k, length ["He"; "llo"] < k ->
       exists w',
         pull (prompt_next broken) k (PromptCreated "hi" false false)
              (init "S")
           = (Ret (["He"; "llo"], PromptFinished), w'))) /\
  ((forall k, exists g' w',
       pull (chat_next hello) k (ChatCreated "hi" false) (init "S")
         = (Ret (take k ["He"; "llo"], g'), w')) /\
   (forall k, length ["He"; "llo"] < k ->
       exists w',
         pull (chat_next hello) k (ChatCreated "hi" false) (init "S")
           = (Ret (["He"; "llo"], ChatFinished), w'))).
Proof.
  split.
  - apply (proj1 (streams_yield_delivered_fragments broken (init "S") "hi"
                    false
                    [content_chunk "He"; no_delta_chunk; content_chunk "llo"])).
    reflexivity.
  - apply (proj1 (proj2 (streams_yield_delivered_fragments hello (init "S")
                           "hi" false
                           [content_chunk "He"; content_chunk "";
                            content_chunk "llo"])));
      reflexivity.
Defined.

(** The example of the specification: from the backend fragments
    ["He"], [""], ["llo"] both kinds of stream yield ["He"], ["llo"]. *)
Example hello_stream_yields :
  delivered_fragments
    [content_chunk "He"; content_chunk ""; content_chunk "llo"]
    = ["He"; "llo"] /\
  fst (pull (chat_next hello) 3 (ChatCreated "hi" false) (init "S"))
    = Ret (["He"; "llo"], ChatFinished) /\
  fst (pull (prompt_next hello) 3 (PromptCreated "hi" false false) (init "S"))
    = Ret (["He"; "llo"], PromptFinished).
Proof. repeat split; reflexivity. Qed.



(** ** Computations that leave the history alone *)

Lemma memory_unchanged_refl w : memory_unchanged w w.
Proof. by unfold memory_unchanged. Qed.

Lemma memory_unchanged_trans w1 w2 w3 :
  memory_unchanged w1 w2 -> memory_unchanged w2 w3 -> memory_unchanged w1 w3.
Proof.
  unfold memory_unchanged. intros (-> & -> & -> & ->) (-> & -> & -> & ->).
  done.
Qed.

Lemma memory_unchanged_memory_of w w' :
  memory_unchanged w w' -> memory_of w' = memory_of w.
Proof. intros (Hh & Hm & _). unfold memory_of, deref. by rewrite Hh, Hm. Qed.

Lemma read_only_bind {A B} (m : M A) (k : A -> M B) :
  read_only m -> (forall a, read_only (k a)) -> read_only (m ≫= k).
Proof.
  intros Hm Hk w. rewrite bind_run. specialize (Hm w).
  destruct (m w) as [[a|e] w']; simpl in *; [|assumption].
  eapply memory_unchanged_trans; [eassumption | apply Hk].
Qed.

Lemma read_only_ret {A} (a : A) : read_only (mret a).
Proof. intros w. apply memory_unchanged_refl. Qed.

Lemma read_only_lift {A} (r : result A) : read_only (lift r).
Proof. intros w. apply memory_unchanged_refl. Qed.

Lemma read_only_get_self_memory : read_only get_self_memory.
Proof. intros w. apply memory_unchanged_refl. Qed.

Lemma read_only_get_self_system_prompt : read_only get_self_system_prompt.
Proof. intros w. apply memory_unchanged_refl. Qed.

Lemma read_only_list_read l : read_only (list_read l).
Proof. intros w. apply memory_unchanged_refl. Qed.

Lemma read_only_log_request msgs b : read_only (log_request msgs b).
Proof. intros w. by unfold memory_unchanged. Qed.

Lemma read_only_print s : read_only (print s).
Proof. intros w. by unfold memory_unchanged. Qed.

Create HintDb read_only.
#[local] Hint Resolve read_only_ret read_only_lift read_only_get_self_memory
  read_only_get_self_system_prompt read_only_list_read read_only_log_request
  read_only_print : read_only.

Ltac read_only_steps :=
  repeat first
    [ apply read_only_bind; [|intros ?]
    | match goal with
      | |- read_only (if ?b then _ else _) => destruct b
      | |- read_only (match ?x with _ => _ end) => destruct x
      end
    | solve [auto with read_only] ].

Section Ephemeral.

Variable llm : Llama.

Lemma read_only_temp_memory p use_memory :
  read_only (temp_memory p use_memory).
Proof. unfold temp_memory. read_only_steps. Qed.

Lemma read_only_prompt p use_memory : read_only (prompt llm p use_memory).
Proof.
  unfold prompt, llm_complete.
  apply read_only_bind; [apply read_only_temp_memory|intros ?].
  read_only_steps.
Qed.

Lemma read_only_prompt_resume ps stream :
  read_only (prompt_resume ps stream).
Proof. unfold prompt_resume. read_only_steps. Qed.

Lemma read_only_prompt_next g : read_only (prompt_next llm g).
Proof.
  destruct g as [p ps um|ps stream|]; simpl.
  - apply read_only_bind; [apply read_only_temp_memory|intros ?].
    unfold llm_stream.
    apply read_only_bind; [read_only_steps|intros ?].
    apply read_only_prompt_resume.
  - apply read_only_prompt_resume.
  - apply read_only_ret.
Qed.

Lemma read_only_pull {G} (next : G -> M (option string * G)) :
  (forall g, read_only (next g)) -> forall k g, read_only (pull next k g).
Proof.
  intros Hnext. induction k as [|k IH]; intros g; simpl.
  - apply read_only_ret.
  - apply read_only_bind; [apply Hnext|]. intros [[token|] g'].
    + apply read_only_bind; [apply IH|intros ?; apply read_only_ret].
    + apply read_only_ret.
Qed.

Lemma read_only_for_each {G} (next : G -> M (option string * G)) :
  (forall g, read_only (next g)) ->
  forall fuel g, read_only (for_each next fuel g).
Proof.
  intros Hnext. induction fuel as [|fuel IH]; intros g; simpl.
  - apply read_only_ret.
  - apply read_only_bind; [apply Hnext|]. intros [[token|] g'].
    + apply IH.
    + apply read_only_ret.
Qed.

Lemma read_only_drain {G} (next : G -> M (option string * G)) pending :
  (forall g, read_only (next g)) -> forall g, read_only (drain next pending g).
Proof.
  intros Hnext g. unfold drain.
  apply read_only_bind; [apply Hnext|]. intros [[token|] g'].
  - by apply read_only_for_each.
  - apply read_only_ret.
Qed.

Lemma read_only_prompt_stream p ps use_memory :
  read_only (prompt_stream llm p ps use_memory).
Proof.
  unfold prompt_stream. destruct ps.
  - apply read_only_bind; [|intros ?; apply read_only_ret].
    apply read_only_drain, read_only_prompt_next.
  - apply read_only_ret.
Qed.

End Ephemeral.

(** C5.  [prompt] and [prompt_stream] never mutate memory: for either
    value of [use_memory], whatever the backend does, with or without
    [print_stream], and however many times the consumer pulls on the
    returned generator (in whatever state that generator is), the store of
    list objects and the fields of [self] are what they were, so
    [get_memory()] returns the same list with the same turns. *)
Theorem prompt_never_mutates_memory
        (llm : Llama) (w : world) (p : string) (use_memory : bool) :
  let same w' :=
    memory_unchanged w w' /\
    fst (get_memory w') = fst (get_memory w) /\
    memory_of w' = memory_of w in
  same (snd (prompt llm p use_memory w)) /\
  (forall ps, same (snd (prompt_stream llm p ps use_memory w))) /\
  (forall ps k,
      same (snd (pull (prompt_next llm) k
                      (PromptCreated p ps use_memory) w))) /\
  (forall g k, same (snd (pull (prompt_next llm) k g w))).
Proof.
  assert (Hsame : forall w', memory_unchanged w w' ->
            memory_unchanged w w' /\
            fst (get_memory w') = fst (get_memory w) /\
            memory_of w' = memory_of w).
  { intros w' H. split; [assumption|]. split.
    - simpl. f_equal. apply H.
    - by apply memory_unchanged_memory_of. }
  cbv beta zeta. split; [|split; [|split]]; intros; apply Hsame.
  - apply read_only_prompt.
  - apply read_only_prompt_stream.
  - apply read_only_pull, read_only_prompt_next.
  - apply read_only_pull, read_only_prompt_next.
Qed.

(** ** When a stream reads memory *)

(** C3 as stated fails.  When [chat_stream "hi"] has returned its
    generator, the user turn is not in memory and nothing was sent to the
    backend; a system prompt edited before the first pull is what the
    backend gets, for [chat_stream] and for [prompt_stream]. *)
Lemma stream_creation_time_refuted :
  memory_of (snd (chat_stream parrot "hi" false (init "S")))
    = [system_turn "S"] /\
  memory_of (snd (chat_stream parrot "hi" false (init "S")))
    <> memory_of (init "S") ++ [user_turn "hi"] /\
  requests (snd (chat_stream parrot "hi" false (init "S"))) = [] /\
  requests (snd (edit_then_pull_chat parrot "hi" "T" (init "S")))
    = [([system_turn "T"; user_turn "hi"], true)] /\
  fst (edit_then_pull_chat parrot "hi" "T" (init "S"))
    = Ret (["T"], ChatSuspended false [empty_delta_chunk] "T") /\
  requests (snd (prompt_stream parrot "hi" false true (init "S"))) = [] /\
  requests (snd (edit_then_pull_prompt parrot "hi" "T" (init "S")))
    = [([system_turn "T"; user_turn "hi"], true)] /\
  fst (edit_then_pull_prompt parrot "hi" "T" (init "S"))
    = Ret (["T"], PromptSuspended false [empty_delta_chunk]).
Proof.
  split; [reflexivity|]. split; [vm_compute; discriminate|].
  repeat split; reflexivity.
Qed.

(** C3, as the code has it.  Creating a stream does nothing: the state is
    what it was and the generator has not started.  The first pull,
    in the state [w1] that it finds, appends the user turn (for
    [chat_stream]) and sends the backend one message list built from the
    memory of [w1].  A later pull sends nothing to the backend and neither
    its result nor the generator it leaves depends on the state: the
    message list is built once. *)
Theorem streams_build_messages_at_first_pull (llm : Llama) (p : string) :
  (forall w, chat_stream llm p false w
             = (Ret (Some (ChatCreated p false)), w)) /\
  (forall w use_memory,
      prompt_stream llm p false use_memory w
      = (Ret (Some (PromptCreated p false use_memory)), w)) /\
  (forall w1,
      let w2 := snd (chat_next llm (ChatCreated p false) w1) in
      requests w2 = requests w1 ++ [(memory_of w1 ++ [user_turn p], true)] /\
      exists tail, memory_of w2 = memory_of w1 ++ user_turn p :: tail) /\
  (forall w1 use_memory,
      requests (snd (prompt_next llm (PromptCreated p false use_memory) w1))
      = requests w1 ++ [(ephemeral_messages w1 p use_memory, true)]) /\
  (forall ps stream fm w1 w2,
      fst (chat_next llm (ChatSuspended ps stream fm) w1)
      = fst (chat_next llm (ChatSuspended ps stream fm) w2) /\
      requests (snd (chat_next llm (ChatSuspended ps stream fm) w1))
      = requests w1) /\
  (forall ps stream w1 w2,
      fst (prompt_next llm (PromptSuspended ps stream) w1)
      = fst (prompt_next llm (PromptSuspended ps stream) w2) /\
      requests (snd (prompt_next llm (PromptSuspended ps stream) w1))
      = requests w1).
Proof.
  split; [reflexivity|]. split; [reflexivity|].
  split; [|split; [|split]].
  - intros w1. cbv zeta. rewrite chat_next_created_run. cbv zeta.
    destruct (create_chat_completion_stream llm _) as [stream|e].
    + rewrite chat_resume_run.
      destruct (chat_loop stream "") as [[[[token rest]|] fm']|e]; simpl.
      * split; [reflexivity | exists []].
        rewrite <- (memory_of_appended (user_turn p) w1). reflexivity.
      * split; [reflexivity | exists [assistant_turn fm']].
        rewrite memory_of_appended, memory_of_logged, memory_of_appended.
        by rewrite <- app_assoc.
      * split; [reflexivity | exists []].
        rewrite memory_of_logged. apply memory_of_appended.
    + simpl. split; [reflexivity | exists []].
      rewrite memory_of_logged. apply memory_of_appended.
  - intros w1 um. rewrite prompt_next_created_run. cbv zeta.
    destruct (create_chat_completion_stream llm _) as [stream|e];
      [|reflexivity].
    rewrite prompt_resume_run.
    destruct (prompt_loop stream) as [[[token rest]|]|e]; reflexivity.
  - intros ps stream fm w1 w2. simpl. rewrite !chat_resume_run.
    destruct (chat_loop stream fm) as [[[[token rest]|] fm']|e];
      destruct ps; split; reflexivity.
  - intros ps stream w1 w2. simpl. rewrite !prompt_resume_run.
    destruct (prompt_loop stream) as [[[token rest]|]|e];
      destruct ps; split; reflexivity.
Qed.

(** ** The display pairs of a history *)

Lemma is_user_eta t : is_user t = true -> t = user_turn (content t).
Proof.
  destruct t as [r c]. unfold is_user, user_turn; simpl.
  by intros ->%String.eqb_eq.
Qed.

Lemma is_user_not_assistant t : is_user t = true -> is_assistant t = false.
Proof.
  unfold is_user, is_assistant. by intros ->%String.eqb_eq.
Qed.

Lemma answered_pairs_skip t turns :
  is_user t = false -> answered_pairs (t :: turns) = answered_pairs turns.
Proof. intros Ht. destruct turns as [|a turns]; simpl; by rewrite ?Ht. Qed.

Lemma answered_pairs_user_user u t turns :
  is_assistant t = false ->
  answered_pairs (u :: t :: turns) = answered_pairs (t :: turns).
Proof.
  intros Ht. change (answered_pairs (u :: t :: turns)) with
    (if is_user u && is_assistant t
     then (content u, content t) :: answered_pairs (t :: turns)
     else answered_pairs (t :: turns)).
  by rewrite Ht, andb_false_r.
Qed.

Lemma answered_pairs_answer u a turns :
  is_assistant a = true ->
  answered_pairs (user_turn u :: a :: turns)
  = (u, content a) :: answered_pairs (a :: turns).
Proof.
  intros Ha. change (answered_pairs (user_turn u :: a :: turns)) with
    (if is_user (user_turn u) && is_assistant a
     then (content (user_turn u), content a) :: answered_pairs (a :: turns)
     else answered_pairs (a :: turns)).
  by rewrite Ha.
Qed.

Lemma answered_pairs_pending cu t turns :
  is_user t = true ->
  answered_pairs (pending cu ++ t :: turns) = answered_pairs (t :: turns).
Proof.
  intros Ht. destruct cu as [u|]; [|reflexivity]. simpl pending. simpl app.
  apply answered_pairs_user_user. by apply is_user_not_assistant.
Qed.

(** The loop of [_memory_to_chatbot], started anywhere. *)
Lemma memory_to_chatbot_loop_spec history :
  forall pairs current_user,
    memory_to_chatbot_loop history pairs current_user =
    pairs ++ answered_pairs (pending current_user ++ dialogue history).
Proof.
  induction history as [|msg rest IH]; intros pairs cu.
  - simpl. rewrite app_nil_r. destruct cu; simpl; by rewrite app_nil_r.
  - simpl memory_to_chatbot_loop. unfold dialogue. simpl List.filter.
    fold (dialogue rest). fold (is_user msg). fold (is_assistant msg).
    destruct (is_user msg) eqn:Hu; simpl orb.
    + rewrite IH. rewrite answered_pairs_pending by assumption.
      replace (msg :: dialogue rest)
        with (user_turn (content msg) :: dialogue rest)
        by (by rewrite <- is_user_eta).
      reflexivity.
    + destruct (is_assistant msg) eqn:Ha.
      * destruct cu as [u|].
        -- rewrite IH.
           change (pending (Some u) ++ msg :: dialogue rest)
             with (user_turn u :: msg :: dialogue rest).
           change (pending None ++ dialogue rest) with (dialogue rest).
           rewrite answered_pairs_answer by assumption.
           rewrite answered_pairs_skip by assumption.
           by rewrite <- app_assoc.
        -- rewrite IH.
           change (pending None ++ msg :: dialogue rest)
             with (msg :: dialogue rest).
           by rewrite answered_pairs_skip.
      * apply IH.
Qed.

Lemma memory_to_chatbot_spec history :
  _memory_to_chatbot history = answered_pairs (dialogue history).
Proof. unfold _memory_to_chatbot. by rewrite memory_to_chatbot_loop_spec. Qed.

Lemma dialogue_app h1 h2 : dialogue (h1 ++ h2) = dialogue h1 ++ dialogue h2.
Proof. unfold dialogue. apply List.filter_app. Qed.

Lemma answered_pairs_snoc_user turns c :
  answered_pairs (turns ++ [user_turn c]) = answered_pairs turns.
Proof.
  induction turns as [|u [|a turns] IH]; [reflexivity| |].
  - simpl. by rewrite andb_false_r.
  - change (answered_pairs ((u :: a :: turns) ++ [user_turn c])) with
      (if is_user u && is_assistant a
       then (content u, content a)
              :: answered_pairs ((a :: turns) ++ [user_turn c])
       else answered_pairs ((a :: turns) ++ [user_turn c])).
    rewrite IH. reflexivity.
Qed.

Lemma answered_pairs_exchanges qa : answered_pairs (exchanges qa) = qa.
Proof.
  induction qa as [|[q a] qa IH]; [reflexivity|].
  change (exchanges ((q, a) :: qa))
    with (user_turn q :: assistant_turn a :: exchanges qa).
  change (answered_pairs (user_turn q :: assistant_turn a :: exchanges qa))
    with ((q, a) :: answered_pairs (assistant_turn a :: exchanges qa)).
  rewrite answered_pairs_skip by reflexivity. by rewrite IH.
Qed.

Lemma dialogue_exchanges qa : dialogue (exchanges qa) = exchanges qa.
Proof.
  induction qa as [|[q a] qa IH]; [reflexivity|].
  change (exchanges ((q, a) :: qa))
    with (user_turn q :: assistant_turn a :: exchanges qa).
  unfold dialogue. simpl. fold (dialogue (exchanges qa)). by rewrite IH.
Qed.

Lemma pairs_by_most_recent_unpaired_exchanges qa :
  forall unpaired,
    pairs_by_most_recent_unpaired (exchanges qa) unpaired = qa.
Proof.
  induction qa as [|[q a] qa IH]; intros unpaired; [reflexivity|].
  change (exchanges ((q, a) :: qa))
    with (user_turn q :: assistant_turn a :: exchanges qa).
  simpl. by rewrite IH.
Qed.

(** C9 as stated fails: after two user turns and an answer to the second,
    a further assistant turn has a preceding user turn that is still
    unpaired, yet the conversion drops that assistant turn. *)
Lemma memory_to_chatbot_pairing_refuted :
  let history := [user_turn "a"; user_turn "b";
                  assistant_turn "x"; assistant_turn "y"] in
  _memory_to_chatbot history = [("b", "x")] /\
  pairs_by_most_recent_unpaired history [] = [("b", "x"); ("a", "y")] /\
  _memory_to_chatbot history <> pairs_by_most_recent_unpaired history [].
Proof.
  cbv zeta. split; [reflexivity|]. split; [reflexivity|].
  vm_compute. discriminate.
Qed.

(** C9, as the code has it.  Set the turns that are neither user nor
    assistant turns aside; the conversion returns, in order, one pair for
    every assistant turn that directly follows a user turn, made of the
    two contents.  So a trailing user turn and a system turn anywhere
    change nothing, a system turn followed by complete exchanges gives
    back the exchanges (as does the pairing with the most recent unpaired
    user turn), and [render] seeds the display with the pairs of the
    current memory. *)
Theorem memory_to_chatbot_answered_pairs (history : list Turn) :
  _memory_to_chatbot history = answered_pairs (dialogue history) /\
  (forall c,
      _memory_to_chatbot (history ++ [user_turn c])
      = _memory_to_chatbot history) /\
  (forall c tail,
      _memory_to_chatbot (history ++ system_turn c :: tail)
      = _memory_to_chatbot (history ++ tail)) /\
  (forall s qa,
      _memory_to_chatbot (system_turn s :: exchanges qa) = qa /\
      pairs_by_most_recent_unpaired (system_turn s :: exchanges qa) [] = qa) /\
  (forall w,
      initial_history w = (Ret (_memory_to_chatbot (memory_of w)), w)).
Proof.
  split; [apply memory_to_chatbot_spec|].
  split; [|split; [|split]].
  - intros c. rewrite !memory_to_chatbot_spec, dialogue_app.
    apply answered_pairs_snoc_user.
  - intros c tail. rewrite !memory_to_chatbot_spec, !dialogue_app.
    reflexivity.
  - intros s qa. split.
    + rewrite memory_to_chatbot_spec.
      change (dialogue (system_turn s :: exchanges qa))
        with (dialogue (exchanges qa)).
      rewrite dialogue_exchanges. apply answered_pairs_exchanges.
    + change (pairs_by_most_recent_unpaired (system_turn s :: exchanges qa) [])
        with (pairs_by_most_recent_unpaired (exchanges qa) []).
      apply pairs_by_most_recent_unpaired_exchanges.
  - intros w. reflexivity.
Qed.

(** ** The store invariant *)

Lemma wf_init sp : wf (init sp).
Proof.
  split; [by eexists|]. intros l [xs Hl]. unfold init in Hl; simpl in *.
  destruct (decide (l = 0)) as [->|Hne]; [lia|].
  by rewrite lookup_singleton_ne in Hl.
Qed.

Lemma wf_memory_unchanged w w' : memory_unchanged w w' -> wf w -> wf w'.
Proof. intros (Hh & Hm & _ & Hn) Hwf. unfold wf. by rewrite Hh, Hm, Hn. Qed.

Lemma wf_logged msgs b w : wf w -> wf (logged msgs b w).
Proof. apply wf_memory_unchanged. by unfold memory_unchanged. Qed.

Lemma wf_echoed ps s w : wf w -> wf (echoed ps s w).
Proof.
  destruct ps; [|done]. apply wf_memory_unchanged. by unfold memory_unchanged.
Qed.

Lemma wf_store_memory xs w : wf w -> wf (store (self_memory w) xs w).
Proof.
  intros [Hm Hlt]. split; simpl.
  - rewrite lookup_insert_eq. by eexists.
  - intros l Hl. destruct (decide (self_memory w = l)) as [<-|Hne].
    + by apply Hlt.
    + rewrite lookup_insert_ne in Hl by assumption. by apply Hlt.
Qed.

Lemma wf_appended t w : wf w -> wf (appended t w).
Proof. apply wf_store_memory. Qed.

Lemma wf_allocated xs w : wf w -> wf (allocated xs w).
Proof.
  intros [Hm Hlt]. split; simpl.
  - destruct (decide (next_ref w = self_memory w)) as [->|Hne].
    + rewrite lookup_insert_eq. by eexists.
    + by rewrite lookup_insert_ne.
  - intros l Hl. destruct (decide (next_ref w = l)) as [<-|Hne]; [lia|].
    rewrite lookup_insert_ne in Hl by assumption.
    specialize (Hlt l Hl). lia.
Qed.

Section Invariant.

Variable llm : Llama.

Lemma wf_chat p w : wf w -> wf (snd (chat llm p w)).
Proof.
  intros Hwf. rewrite chat_run. cbv zeta.
  destruct (create_chat_completion llm _); simpl;
    auto using wf_appended, wf_logged.
Qed.

Lemma wf_chat_resume ps stream fm w :
  wf w -> wf (snd (chat_resume ps stream fm w)).
Proof.
  intros Hwf. rewrite chat_resume_run.
  destruct (chat_loop stream fm) as [[[[token rest]|] fm']|e]; simpl;
    auto using wf_appended, wf_echoed.
Qed.

Lemma wf_chat_next g w : wf w -> wf (snd (chat_next llm g w)).
Proof.
  intros Hwf. destruct g as [p ps|ps stream fm|]; [| |assumption].
  - rewrite chat_next_created_run. cbv zeta.
    destruct (create_chat_completion_stream llm _); simpl;
      auto using wf_chat_resume, wf_appended, wf_logged.
  - by apply wf_chat_resume.
Qed.

Lemma wf_prompt_next g w : wf w -> wf (snd (prompt_next llm g w)).
Proof. apply wf_memory_unchanged, read_only_prompt_next. Qed.

Lemma wf_prompt p use_memory w : wf w -> wf (snd (prompt llm p use_memory w)).
Proof. apply wf_memory_unchanged, read_only_prompt. Qed.

Lemma wf_pull {G} (next : G -> M (option string * G)) :
  (forall g w, wf w -> wf (snd (next g w))) ->
  forall k g w, wf w -> wf (snd (pull next k g w)).
Proof.
  intros Hnext. induction k as [|k IH]; intros g w Hwf; [assumption|].
  rewrite pull_step. specialize (Hnext g w Hwf).
  destruct (next g w) as [[[[token|] g']|e] w']; simpl in *; try assumption.
  specialize (IH g' w' Hnext).
  destruct (pull next k g' w') as [[r|e] w'']; assumption.
Qed.

Lemma wf_modify_system_prompt t w :
  wf w -> wf (snd (modify_system_prompt t w)).
Proof.
  intros Hwf. rewrite modify_system_prompt_run.
  destruct (memory_of w); simpl; auto using wf_store_memory.
Qed.

(** [clear_memory] makes a new list object: the history is the stored
    system prompt alone, and every list object that existed before, the
    former history among them, keeps its contents. *)
Lemma clear_memory_run w :
  wf w ->
  exists w',
    clear_memory w = (Ret tt, w') /\ wf w' /\
    memory_of w' = [system_turn (self_system_prompt w)] /\
    self_memory w' <> self_memory w /\
    forall l, is_Some (heap w !! l) -> deref w' l = deref w l.
Proof.
  intros Hwf. eexists. split; [reflexivity|].
  pose proof (proj2 Hwf) as Hlt.
  split; [|split; [|split]].
  - split; simpl.
    + rewrite lookup_insert_eq. by eexists.
    + intros l Hl. destruct (decide (next_ref w = l)) as [<-|Hne]; [lia|].
      rewrite lookup_insert_ne in Hl by assumption.
      specialize (Hlt l Hl). lia.
  - unfold memory_of, deref; simpl. by rewrite lookup_insert_eq.
  - simpl. specialize (Hlt _ (proj1 Hwf)). lia.
  - intros l Hl. unfold deref; simpl.
    rewrite lookup_insert_ne; [reflexivity|].
    specialize (Hlt l Hl). lia.
Qed.

(** [set_memory] adopts the caller's list object. *)
Lemma set_memory_run l w :
  set_memory l w = (Ret tt, with_memory l w) /\
  memory_of (with_memory l w) = deref w l /\
  (wf w -> is_Some (heap w !! l) -> wf (with_memory l w)).
Proof.
  split; [reflexivity|]. split; [reflexivity|].
  intros [_ Hlt] Hl. by split.
Qed.

End Invariant.

(** ** Draining a generator: the [print_stream] mode *)

Section Draining.

Variable llm : Llama.

Lemma for_each_step {G} (next : G -> M (option string * G)) fuel g w :
  for_each next (S fuel) g w =
  match next g w with
  | (Ret (Some _, g'), w') => for_each next fuel g' w'
  | (Ret (None, g'), w') => (Ret g', w')
  | (Raise e, w') => (Raise e, w')
  end.
Proof.
  simpl. run. destruct (next g w) as [[[[token|] g']|e] w']; reflexivity.
Qed.

Lemma chat_next_raises ps c rest fm w :
  has_delta c = false ->
  chat_next llm (ChatSuspended ps (c :: rest) fm) w
  = (Raise (KeyError "delta"), w).
Proof.
  destruct c as [[delta|]]; [discriminate|]. intros _.
  apply chat_next_no_delta.
Qed.

(** The fuel that [drain] gives is enough: the loop ends because the
    generator stopped or raised. *)
Lemma for_each_chat_ends stream :
  forall ps fm w fuel,
    length stream < fuel ->
    match for_each (chat_next llm) fuel (ChatSuspended ps stream fm) w with
    | (Ret g, _) => g = ChatFinished
    | (Raise _, _) => True
    end.
Proof.
  induction stream as [|c rest IH]; intros ps fm w [|fuel] Hfuel;
    try (simpl in Hfuel; lia).
  - by rewrite for_each_step, chat_next_end.
  - simpl in Hfuel. destruct (has_delta c) eqn:Hd.
    + destruct (truthy (chunk_text c)) eqn:Ht.
      * rewrite for_each_step, chat_next_yield by assumption.
        apply IH. lia.
      * rewrite for_each_step, chat_next_skip, <- for_each_step
          by assumption.
        apply IH. lia.
    + by rewrite for_each_step, chat_next_raises.
Qed.

Lemma for_each_prompt_ends stream :
  forall ps w fuel,
    length stream < fuel ->
    exists w',
      for_each (prompt_next llm) fuel (PromptSuspended ps stream) w
      = (Ret PromptFinished, w').
Proof.
  induction stream as [|c rest IH]; intros ps w [|fuel] Hfuel;
    try (simpl in Hfuel; lia).
  - rewrite for_each_step, prompt_next_end. by eexists.
  - simpl in Hfuel. destruct (truthy (chunk_text c)) eqn:Ht.
    + rewrite for_each_step, prompt_next_yield by assumption.
      apply IH. lia.
    + rewrite for_each_step, prompt_next_skip, <- for_each_step
        by assumption.
      apply IH. lia.
Qed.

Lemma drain_chat_ends g w :
  match drain (chat_next llm) chat_pending g w with
  | (Ret g', _) => g' = ChatFinished
  | (Raise _, _) => True
  end.
Proof.
  unfold drain. rewrite bind_run.
  assert (Hresume : forall ps stream fm w0,
    match
      match chat_resume ps stream fm w0 with
      | (Ret (Some _, g'), w') =>
          for_each (chat_next llm) (S (chat_pending g')) g' w'
      | (Ret (None, g'), w') => (Ret g', w')
      | (Raise e, w') => (Raise e, w')
      end
    with
    | (Ret g', _) => g' = ChatFinished
    | (Raise _, _) => True
    end).
  { intros ps stream fm w0. rewrite chat_resume_run.
    destruct (chat_loop stream fm) as [[[[token rest]|] fm']|e];
      [|reflexivity|exact I].
    apply for_each_chat_ends. simpl. lia. }
  destruct g as [p ps|ps stream fm|]; [| |reflexivity].
  - rewrite chat_next_created_run. cbv zeta.
    destruct (create_chat_completion_stream llm _) as [stream|e];
      [|exact I].
    specialize (Hresume ps stream "" (logged (memory_of w ++ [user_turn p])
                                         true (appended (user_turn p) w))).
    destruct (chat_resume ps stream "" _) as [[[[token|] g']|e] w'];
      exact Hresume.
  - specialize (Hresume ps stream fm w). simpl chat_next.
    destruct (chat_resume ps stream fm w) as [[[[token|] g']|e] w'];
      exact Hresume.
Qed.

Lemma drain_prompt_ends g w :
  match drain (prompt_next llm) prompt_pending g w with
  | (Ret g', _) => g' = PromptFinished
  | (Raise _, _) => True
  end.
Proof.
  unfold drain. rewrite bind_run.
  assert (Hresume : forall ps stream w0,
    match
      match prompt_resume ps stream w0 with
      | (Ret (Some _, g'), w') =>
          for_each (prompt_next llm) (S (prompt_pending g')) g' w'
      | (Ret (None, g'), w') => (Ret g', w')
      | (Raise e, w') => (Raise e, w')
      end
    with
    | (Ret g', _) => g' = PromptFinished
    | (Raise _, _) => True
    end).
  { intros ps stream w0. rewrite prompt_resume_run.
    destruct (prompt_loop stream) as [[[token rest]|]|e];
      [|reflexivity|exact I].
    destruct (for_each_prompt_ends rest ps (echoed ps token w0)
                (S (prompt_pending (PromptSuspended ps rest))))
      as [w' ->]; [simpl; lia | reflexivity]. }
  destruct g as [p ps um|ps stream|]; [| |reflexivity].
  - rewrite prompt_next_created_run. cbv zeta.
    destruct (create_chat_completion_stream llm _) as [stream|e];
      [|exact I].
    specialize (Hresume ps stream
                  (logged (ephemeral_messages w p um) true w)).
    destruct (prompt_resume ps stream _) as [[[[token|] g']|e] w'];
      exact Hresume.
  - specialize (Hresume ps stream w). simpl prompt_next.
    destruct (prompt_resume ps stream w) as [[[[token|] g']|e] w'];
      exact Hresume.
Qed.

(** What the loop of [drain] does to a suspended chat generator. *)
Lemma for_each_chat_suspended stream :
  forallb has_delta stream = true ->
  forall ps fm w fuel,
    length stream < fuel ->
    for_each (chat_next llm) fuel (ChatSuspended ps stream fm) w =
    let tokens := delivered_fragments stream in
    (Ret ChatFinished,
     appended (assistant_turn (fm +:+ concat_fragments tokens))
              (echoed ps newline (echoed_all ps tokens w))).
Proof.
  induction stream as [|c rest IH]; intros Hwf ps fm w [|fuel] Hfuel;
    try (simpl in Hfuel; lia).
  - rewrite for_each_step, chat_next_end. cbv zeta.
    unfold concat_fragments; simpl. by rewrite string_app_nil_r.
  - simpl in Hfuel, Hwf. apply andb_true_iff in Hwf as [Hc Hrest].
    cbv zeta. rewrite delivered_fragments_cons.
    destruct (truthy (chunk_text c)) eqn:Ht.
    + rewrite for_each_step, chat_next_yield by assumption.
      rewrite IH by (assumption || lia). cbv zeta.
      unfold concat_fragments; simpl.
      fold (concat_fragments (delivered_fragments rest)).
      by rewrite string_app_assoc.
    + rewrite for_each_step, chat_next_skip, <- for_each_step
        by assumption.
      rewrite IH by (assumption || lia). reflexivity.
Qed.

Lemma drain_chat_suspended stream :
  forallb has_delta stream = true ->
  forall ps fm w,
    drain (chat_next llm) chat_pending (ChatSuspended ps stream fm) w =
    let tokens := delivered_fragments stream in
    (Ret ChatFinished,
     appended (assistant_turn (fm +:+ concat_fragments tokens))
              (echoed ps newline (echoed_all ps tokens w))).
Proof.
  induction stream as [|c rest IH]; intros Hwf ps fm w.
  - unfold drain. rewrite bind_run, chat_next_end. cbv zeta.
    unfold concat_fragments; simpl. by rewrite string_app_nil_r.
  - simpl in Hwf. apply andb_true_iff in Hwf as [Hc Hrest].
    cbv zeta. rewrite delivered_fragments_cons.
    destruct (truthy (chunk_text c)) eqn:Ht.
    + unfold drain. rewrite bind_run, chat_next_yield by assumption.
      rewrite for_each_chat_suspended by (assumption || simpl; lia).
      cbv zeta. unfold concat_fragments; simpl.
      fold (concat_fragments (delivered_fragments rest)).
      by rewrite string_app_assoc.
    + transitivity (drain (chat_next llm) chat_pending
                          (ChatSuspended ps rest fm) w).
      * unfold drain. by rewrite !bind_run, chat_next_skip.
      * by rewrite IH.
Qed.

(** [chat_stream p (print_stream=True)] on a well-formed stream: the
    session drains the generator itself, prints every fragment and a
    newline, commits both turns and returns [None]. *)
Lemma chat_stream_print_run p stream w :
  create_chat_completion_stream llm (memory_of w ++ [user_turn p])
    = Ret stream ->
  forallb has_delta stream = true ->
  exists w',
    chat_stream llm p true w = (Ret None, w') /\
    memory_of w' =
      memory_of w ++
        [user_turn p;
         assistant_turn (concat_fragments (delivered_fragments stream))] /\
    stdout w' = stdout w ++ delivered_fragments stream ++ [newline].
Proof.
  intros Hs Hwf. unfold chat_stream. rewrite bind_run.
  assert (Hd : drain (chat_next llm) chat_pending (ChatCreated p true) w =
               drain (chat_next llm) chat_pending
                     (ChatSuspended true stream "")
                     (logged (memory_of w ++ [user_turn p]) true
                             (appended (user_turn p) w))).
  { unfold drain. rewrite !bind_run, chat_next_created_run. cbv zeta.
    by rewrite Hs. }
  rewrite Hd, drain_chat_suspended by assumption. cbv zeta.
  eexists. split; [reflexivity|]. split.
  - rewrite memory_of_appended.
    assert (Hmem : forall ss w0,
              memory_of (echoed_all true ss w0) = memory_of w0).
    { induction ss as [|s0 ss IHss]; intros w0; [reflexivity|].
      simpl. by rewrite IHss. }
    change (memory_of (echoed true newline ?w0)) with (memory_of w0).
    rewrite Hmem, memory_of_logged, memory_of_appended.
    by rewrite <- app_assoc.
  - assert (Hout : forall ss w0,
              stdout (echoed_all true ss w0) = stdout w0 ++ ss).
    { induction ss as [|s0 ss IHss]; intros w0; simpl.
      - by rewrite app_nil_r.
      - rewrite IHss. simpl. by rewrite <- app_assoc. }
    simpl. rewrite Hout. simpl. by rewrite <- app_assoc.
Qed.

End Draining.

(** * Further properties of the session and the adapter *)

(** ** Blocking calls in any state *)

(** X1.  In any state, a [chat p] that the backend answers with [R]
    returns [R], asks the backend once with the history followed by
    [{user,p}], appends exactly [{user,p}] and [{assistant,R}] to the
    history, and leaves the fields of [self], every other list object and
    the output alone. *)
Theorem chat_appends_exchange (llm : Llama) (w : world) (p R : string) :
  create_chat_completion llm (memory_of w ++ [user_turn p]) = Ret R ->
  exists w',
    chat llm p w = (Ret R, w') /\
    memory_of w' = memory_of w ++ [user_turn p; assistant_turn R] /\
    requests w' = requests w ++ [(memory_of w ++ [user_turn p], false)] /\
    self_memory w' = self_memory w /\
    self_system_prompt w' = self_system_prompt w /\
    stdout w' = stdout w /\
    forall l, l <> self_memory w -> deref w' l = deref w l.
Proof.
  intros HR. rewrite chat_run. cbv zeta. rewrite HR.
  eexists. split; [reflexivity|]. split.
  { rewrite memory_of_appended, memory_of_logged, memory_of_appended.
    by rewrite <- app_assoc. }
  repeat (split; [reflexivity|]).
  intros l Hl. unfold appended.
  rewrite deref_store_ne by (simpl; congruence).
  change (deref (logged ?m ?b ?w0) l) with (deref w0 l).
  by rewrite deref_store_ne.
Qed.

Lemma chat_appends_exchange_witness :
  let w := snd (chat hello "hi" (init "S")) in
  exists w',
    chat hello "again" w = (Ret "Hello", w') /\
    memory_of w' = memory_of w ++ [user_turn "again"; assistant_turn "Hello"] /\
    requests w' = requests w ++ [(memory_of w ++ [user_turn "again"], false)] /\
    self_memory w' = self_memory w /\
    self_system_prompt w' = self_system_prompt w /\
    stdout w' = stdout w /\
    forall l, l <> self_memory w -> deref w' l = deref w l.
Proof.
  apply (chat_appends_exchange hello (snd (chat hello "hi" (init "S")))
           "again" "Hello").
  reflexivity.
Defined.

(** X2.  [prompt p] with [use_memory] asks the backend exactly what
    [chat p] asks and returns exactly what [chat p] returns, answer or
    exception, but leaves the history as it was. *)
Theorem prompt_asks_like_chat (llm : Llama) (w : world) (p : string) :
  fst (prompt llm p true w) = fst (chat llm p w) /\
  requests (snd (prompt llm p true w)) = requests (snd (chat llm p w)) /\
  memory_of (snd (prompt llm p true w)) = memory_of w.
Proof.
  rewrite prompt_run, chat_run. cbv zeta. simpl ephemeral_messages.
  destruct (create_chat_completion llm (memory_of w ++ [user_turn p]));
    repeat split; reflexivity.
Qed.

(** X3.  A [chat] that fails leaves its question in the history, and the
    next [chat] sends it along: after [chat p1] raised and [chat p2] was
    answered with [R], the backend has seen [{user,p1}] and [{user,p2}]
    in a row and the history ends with
    [{user,p1}], [{user,p2}], [{assistant,R}]. *)
Theorem chat_after_failure (llm : Llama) (w : world) (p1 p2 R : string)
        (e : exn) :
  create_chat_completion llm (memory_of w ++ [user_turn p1]) = Raise e ->
  create_chat_completion llm (memory_of w ++ [user_turn p1; user_turn p2])
    = Ret R ->
  let w1 := snd (chat llm p1 w) in
  fst (chat llm p1 w) = Raise e /\
  fst (chat llm p2 w1) = Ret R /\
  memory_of (snd (chat llm p2 w1))
    = memory_of w ++ [user_turn p1; user_turn p2; assistant_turn R] /\
  requests (snd (chat llm p2 w1))
    = requests w ++ [(memory_of w ++ [user_turn p1], false);
                     (memory_of w ++ [user_turn p1; user_turn p2], false)].
Proof.
  intros He HR. cbv zeta.
  assert (H1 : chat llm p1 w =
               (Raise e, logged (memory_of w ++ [user_turn p1]) false
                                (appended (user_turn p1) w))).
  { rewrite chat_run. cbv zeta. by rewrite He. }
  rewrite H1. cbn [fst snd]. rewrite chat_run. cbv zeta.
  rewrite memory_of_logged, memory_of_appended, <- app_assoc.
  change ([user_turn p1] ++ [user_turn p2]) with [user_turn p1; user_turn p2].
  rewrite HR. cbn [fst snd]. split; [reflexivity|]. split; [reflexivity|].
  split.
  - rewrite memory_of_appended, memory_of_logged, memory_of_appended,
      memory_of_logged, memory_of_appended.
    by rewrite <- !app_assoc.
  - simpl. by rewrite <- app_assoc.
Qed.

Lemma chat_after_failure_witness :
  let w := init "S" in
  let w1 := snd (chat flaky "one" w) in
  fst (chat flaky "one" w) = Raise (BackendFailure "busy") /\
  fst (chat flaky "two" w1) = Ret "ok" /\
  memory_of (snd (chat flaky "two" w1))
    = memory_of w ++ [user_turn "one"; user_turn "two"; assistant_turn "ok"] /\
  requests (snd (chat flaky "two" w1))
    = requests w ++ [(memory_of w ++ [user_turn "one"], false);
                     (memory_of w ++ [user_turn "one"; user_turn "two"],
                      false)].
Proof.
  apply (chat_after_failure flaky (init "S") "one" "two" "ok"
           (BackendFailure "busy")); reflexivity.
Defined.

(** ** What the display shows *)

Lemma answered_pairs_app_user d q tl :
  answered_pairs (d ++ user_turn q :: tl)
  = answered_pairs d ++ answered_pairs (user_turn q :: tl).
Proof.
  induction d as [|x [|y d] IH]; [reflexivity| |].
  - change ([x] ++ user_turn q :: tl) with (x :: user_turn q :: tl).
    by rewrite answered_pairs_user_user.
  - change (answered_pairs ((x :: y :: d) ++ user_turn q :: tl)) with
      (if is_user x && is_assistant y
       then (content x, content y)
              :: answered_pairs ((y :: d) ++ user_turn q :: tl)
       else answered_pairs ((y :: d) ++ user_turn q :: tl)).
    change (answered_pairs (x :: y :: d)) with
      (if is_user x && is_assistant y
       then (content x, content y) :: answered_pairs (y :: d)
       else answered_pairs (y :: d)).
    rewrite IH. by destruct (is_user x && is_assistant y).
Qed.

Lemma memory_to_chatbot_app_exchanges history qa :
  _memory_to_chatbot (history ++ exchanges qa)
  = _memory_to_chatbot history ++ qa.
Proof.
  rewrite !memory_to_chatbot_spec, dialogue_app, dialogue_exchanges.
  destruct qa as [|[q a] qa]; [by rewrite !app_nil_r|].
  change (exchanges ((q, a) :: qa))
    with (user_turn q :: assistant_turn a :: exchanges qa).
  rewrite answered_pairs_app_user.
  change (user_turn q :: assistant_turn a :: exchanges qa)
    with (exchanges ((q, a) :: qa)).
  by rewrite answered_pairs_exchanges.
Qed.

(** X4.  Whatever the history holds, a completed exchange at its end adds
    exactly one pair at the end of the display, and a run of completed
    exchanges adds exactly their pairs, in order: an unanswered user turn
    that was left earlier is never paired with a later answer. *)
Theorem memory_to_chatbot_grows_by_exchange (history : list Turn) :
  (forall p R,
      _memory_to_chatbot (history ++ [user_turn p; assistant_turn R])
      = _memory_to_chatbot history ++ [(p, R)]) /\
  (forall qa,
      _memory_to_chatbot (history ++ exchanges qa)
      = _memory_to_chatbot history ++ qa) /\
  (forall p1 p2 R,
      _memory_to_chatbot
        (history ++ [user_turn p1; user_turn p2; assistant_turn R])
      = _memory_to_chatbot history ++ [(p2, R)]).
Proof.
  split; [|split].
  - intros p R. apply (memory_to_chatbot_app_exchanges history [(p, R)]).
  - apply memory_to_chatbot_app_exchanges.
  - intros p1 p2 R.
    change (history ++ [user_turn p1; user_turn p2; assistant_turn R])
      with (history ++ [user_turn p1] ++ exchanges [(p2, R)]).
    rewrite app_assoc, memory_to_chatbot_app_exchanges.
    f_equal. rewrite !memory_to_chatbot_spec, dialogue_app.
    apply answered_pairs_snoc_user.
Qed.

Lemma chats_run (llm : Llama) :
  responsive llm ->
  forall prompts w,
    exists w',
      chats llm prompts w = (Ret (replies llm (memory_of w) prompts), w') /\
      length (replies llm (memory_of w) prompts) = length prompts /\
      memory_of w' =
        memory_of w
          ++ exchanges (combine prompts (replies llm (memory_of w) prompts)).
Proof.
  intros Hresp. induction prompts as [|p rest IH]; intros w.
  - exists w. split; [reflexivity|]. split; [reflexivity|].
    simpl. by rewrite app_nil_r.
  - destruct (Hresp (memory_of w ++ [user_turn p])) as [R HR].
    pose proof (chat_run llm p w) as Hchat. cbv zeta in Hchat.
    rewrite HR in Hchat.
    set (w1 := appended (assistant_turn R)
                 (logged (memory_of w ++ [user_turn p]) false
                         (appended (user_turn p) w))) in Hchat.
    assert (Hmem : memory_of w1
                   = memory_of w ++ [user_turn p; assistant_turn R]).
    { unfold w1.
      rewrite memory_of_appended, memory_of_logged, memory_of_appended.
      by rewrite <- app_assoc. }
    destruct (IH w1) as (w' & Hrun & Hlen & Hfinal).
    exists w'. simpl replies. rewrite HR.
    rewrite Hmem in Hrun, Hlen, Hfinal.
    split; [|split].
    + simpl chats. rewrite bind_run, Hchat, bind_run, Hrun. reflexivity.
    + simpl. by rewrite Hlen.
    + rewrite Hfinal. simpl combine.
      change (exchanges ((p, R) :: ?qa))
        with (user_turn p :: assistant_turn R :: exchanges qa).
      by rewrite <- app_assoc.
Qed.

(** X5.  With a backend whose blocking call never raises, chatting through
    a list of prompts returns one answer per prompt, each the answer of
    the backend to the history so far followed by that prompt; the history
    grows by the exchanges in order and the display of the adapter grows
    by exactly the (prompt, answer) pairs. *)
Theorem conversation_is_displayed (llm : Llama) (w : world)
        (prompts : list string) :
  responsive llm ->
  let answers := replies llm (memory_of w) prompts in
  exists w',
    chats llm prompts w = (Ret answers, w') /\
    length answers = length prompts /\
    memory_of w' = memory_of w ++ exchanges (combine prompts answers) /\
    fst (initial_history w')
      = Ret (_memory_to_chatbot (memory_of w) ++ combine prompts answers).
Proof.
  intros Hresp. cbv zeta.
  destruct (chats_run llm Hresp prompts w) as (w' & Hrun & Hlen & Hmem).
  exists w'. split; [assumption|]. split; [assumption|].
  split; [assumption|].
  change (fst (initial_history w'))
    with (Ret (A := list (string * string))
              (_memory_to_chatbot (memory_of w'))).
  by rewrite Hmem, memory_to_chatbot_app_exchanges.
Qed.

Lemma conversation_is_displayed_witness :
  let answers := replies hello (memory_of (init "S")) ["a"; "b"] in
  exists w',
    chats hello ["a"; "b"] (init "S") = (Ret answers, w') /\
    length answers = length ["a"; "b"] /\
    memory_of w'
      = memory_of (init "S") ++ exchanges (combine ["a"; "b"] answers) /\
    fst (initial_history w')
      = Ret (_memory_to_chatbot (memory_of (init "S"))
               ++ combine ["a"; "b"] answers).
Proof.
  apply (conversation_is_displayed hello (init "S") ["a"; "b"]).
  intros msgs. exists "Hello". reflexivity.
Defined.

Lemma is_assistant_eta t :
  is_assistant t = true -> t = assistant_turn (content t).
Proof.
  destruct t as [r c]. unfold is_assistant, assistant_turn; simpl.
  by intros ->%String.eqb_eq.
Qed.

Lemma answered_pairs_cons2 u a turns :
  answered_pairs (u :: a :: turns) =
  if is_user u && is_assistant a
  then (content u, content a) :: answered_pairs (a :: turns)
  else answered_pairs (a :: turns).
Proof. reflexivity. Qed.

Lemma answered_pairs_sound turns :
  Forall (fun x => In (user_turn (fst x)) turns /\
                   In (assistant_turn (snd x)) turns)
         (answered_pairs turns).
Proof.
  induction turns as [|u [|a turns] IH]; [constructor|constructor|].
  assert (Hrest : Forall (fun x => In (user_turn (fst x)) (u :: a :: turns) /\
                                   In (assistant_turn (snd x))
                                      (u :: a :: turns))
                         (answered_pairs (a :: turns))).
  { eapply Forall_impl; [exact IH|]. intros x [Hu Ha].
    split; by right. }
  rewrite answered_pairs_cons2.
  destruct (is_user u && is_assistant a) eqn:Hc; [|assumption].
  apply andb_true_iff in Hc as [Hu Ha]. constructor; [|assumption].
  simpl fst; simpl snd. split.
  - left. by apply is_user_eta.
  - right; left. by apply is_assistant_eta.
Qed.

Lemma answered_pairs_length_assistant turns :
  length (answered_pairs turns)
  <= length (List.filter is_assistant (tl turns)).
Proof.
  induction turns as [|u [|a turns] IH]; [simpl; lia|simpl; lia|].
  rewrite answered_pairs_cons2.
  change (tl (u :: a :: turns)) with (a :: turns).
  change (tl (a :: turns)) with turns in IH.
  change (List.filter is_assistant (a :: turns))
    with (if is_assistant a then a :: List.filter is_assistant turns
          else List.filter is_assistant turns).
  destruct (is_assistant a); destruct (is_user u); cbn [andb length]; lia.
Qed.

Lemma answered_pairs_length_user turns :
  length (answered_pairs turns) <= length (List.filter is_user turns).
Proof.
  induction turns as [|u [|a turns] IH]; [simpl; lia| |].
  - simpl. destruct (is_user u); simpl; lia.
  - rewrite answered_pairs_cons2.
    change (List.filter is_user (u :: a :: turns))
      with (if is_user u then u :: List.filter is_user (a :: turns)
            else List.filter is_user (a :: turns)).
    destruct (is_user u); destruct (is_assistant a); cbn [andb length]; lia.
Qed.

Lemma filter_filter_length {A} (P Q : A -> bool) (l : list A) :
  length (List.filter P (List.filter Q l)) <= length (List.filter P l).
Proof.
  induction l as [|x l IH]; [reflexivity|]. simpl.
  destruct (Q x); simpl; destruct (P x); simpl; lia.
Qed.

Lemma filter_tl_length {A} (P : A -> bool) (l : list A) :
  length (List.filter P (tl l)) <= length (List.filter P l).
Proof. destruct l as [|x l]; [reflexivity|]. simpl. destruct (P x); simpl; lia. Qed.

(** X6.  The display never invents text: both contents of every pair are
    the contents of a user turn and of an assistant turn of the history,
    and there are at most as many pairs as assistant turns and as user
    turns. *)
Theorem memory_to_chatbot_from_history (history : list Turn) :
  Forall (fun x => In (user_turn (fst x)) history /\
                   In (assistant_turn (snd x)) history)
         (_memory_to_chatbot history) /\
  length (_memory_to_chatbot history)
    <= length (List.filter is_assistant history) /\
  length (_memory_to_chatbot history)
    <= length (List.filter is_user history).
Proof.
  rewrite memory_to_chatbot_spec. split; [|split].
  - eapply Forall_impl; [apply answered_pairs_sound|].
    unfold dialogue. intros x [Hu Ha].
    apply filter_In in Hu as [Hu _]. apply filter_In in Ha as [Ha _]. done.
  - etransitivity; [apply answered_pairs_length_assistant|].
    etransitivity; [apply filter_tl_length|]. apply filter_filter_length.
  - etransitivity; [apply answered_pairs_length_user|].
    apply filter_filter_length.
Qed.

(** ** The history only grows *)

Lemma grows_refl w : grows w w.
Proof.
  repeat split; try reflexivity. exists []. by rewrite app_nil_r.
Qed.

Lemma grows_trans w1 w2 w3 : grows w1 w2 -> grows w2 w3 -> grows w1 w3.
Proof.
  intros (Hm & Hs & [s1 H1] & Hd) (Hm' & Hs' & [s2 H2] & Hd').
  split; [congruence|]. split; [congruence|]. split.
  - exists (s1 ++ s2). by rewrite H2, H1, <- app_assoc.
  - intros l Hl. rewrite Hd' by congruence. by apply Hd.
Qed.

Lemma grows_memory_unchanged w w' : memory_unchanged w w' -> grows w w'.
Proof.
  intros (Hh & Hm & Hs & _). split; [assumption|]. split; [assumption|].
  split.
  - exists []. unfold memory_of, deref. by rewrite Hh, Hm, app_nil_r.
  - intros l _. unfold deref. by rewrite Hh.
Qed.

Lemma grows_appended t w : grows w (appended t w).
Proof.
  split; [reflexivity|]. split; [reflexivity|]. split.
  - exists [t]. apply memory_of_appended.
  - intros l Hl. unfold appended. by rewrite deref_store_ne.
Qed.

Lemma grows_logged msgs b w : grows w (logged msgs b w).
Proof. apply grows_memory_unchanged. by unfold memory_unchanged. Qed.

Lemma grows_echoed ps s w : grows w (echoed ps s w).
Proof.
  destruct ps; [|apply grows_refl].
  apply grows_memory_unchanged. by unfold memory_unchanged.
Qed.

Section Growth.

Variable llm : Llama.

Lemma grows_chat p w : grows w (snd (chat llm p w)).
Proof.
  rewrite chat_run. cbv zeta.
  destruct (create_chat_completion llm _); simpl;
    eauto using grows_trans, grows_appended, grows_logged.
Qed.

Lemma grows_chat_resume ps stream fm w :
  grows w (snd (chat_resume ps stream fm w)).
Proof.
  rewrite chat_resume_run.
  destruct (chat_loop stream fm) as [[[[token rest]|] fm']|e]; simpl;
    eauto using grows_trans, grows_appended, grows_echoed, grows_refl.
Qed.

Lemma grows_chat_next g w : grows w (snd (chat_next llm g w)).
Proof.
  destruct g as [p ps|ps stream fm|]; [| |apply grows_refl].
  - rewrite chat_next_created_run. cbv zeta.
    destruct (create_chat_completion_stream llm _); simpl;
      eauto using grows_trans, grows_appended, grows_logged,
        grows_chat_resume.
  - apply grows_chat_resume.
Qed.

Lemma grows_chat_fn_next g w : grows w (snd (chat_fn_next llm g w)).
Proof.
  assert (Hresume : forall partial gen w0,
            grows w0 (snd (chat_fn_resume llm partial gen w0))).
  { intros partial gen w0. unfold chat_fn_resume. rewrite bind_run.
    pose proof (grows_chat_next gen w0) as Hg.
    destruct (chat_next llm gen w0) as [[[[chunk|] gen']|e] w']; exact Hg. }
  destruct g as [message|partial gen|]; [| |apply grows_refl].
  - apply Hresume.
  - apply Hresume.
Qed.

Lemma grows_pull {G} (next : G -> M (option string * G)) :
  (forall g w, grows w (snd (next g w))) ->
  forall k g w, grows w (snd (pull next k g w)).
Proof.
  intros Hnext. induction k as [|k IH]; intros g w; [apply grows_refl|].
  rewrite pull_step. specialize (Hnext g w).
  destruct (next g w) as [[[[token|] g']|e] w']; simpl in *; try assumption.
  specialize (IH g' w').
  destruct (pull next k g' w') as [[r|e] w'']; simpl in *;
    eauto using grows_trans.
Qed.

Lemma grows_for_each {G} (next : G -> M (option string * G)) :
  (forall g w, grows w (snd (next g w))) ->
  forall fuel g w, grows w (snd (for_each next fuel g w)).
Proof.
  intros Hnext. induction fuel as [|fuel IH]; intros g w;
    [apply grows_refl|].
  rewrite for_each_step. specialize (Hnext g w).
  destruct (next g w) as [[[[token|] g']|e] w']; simpl in *; try assumption.
  eauto using grows_trans.
Qed.

Lemma grows_drain {G} (next : G -> M (option string * G)) pending :
  (forall g w, grows w (snd (next g w))) ->
  forall g w, grows w (snd (drain next pending g w)).
Proof.
  intros Hnext g w. unfold drain. rewrite bind_run.
  pose proof (Hnext g w) as Hg.
  destruct (next g w) as [[[[token|] g']|e] w']; cbn [fst snd] in *;
    try assumption.
  eapply grows_trans; [exact Hg|]. by apply grows_for_each.
Qed.

Lemma grows_chat_stream p ps w : grows w (snd (chat_stream llm p ps w)).
Proof.
  unfold chat_stream. destruct ps; [|apply grows_refl].
  rewrite bind_run.
  pose proof (grows_drain (chat_next llm) chat_pending grows_chat_next
                (ChatCreated p true) w) as Hd.
  destruct (drain (chat_next llm) chat_pending (ChatCreated p true) w)
    as [[g'|e] w']; exact Hd.
Qed.

End Growth.

(** X7.  [chat], [chat_stream] in either mode, any number of pulls on a
    chat generator in any state, and any number of pulls on the callback
    of the adapter only ever append to the history: the turns that were
    there stay where they are, the [memory] and [system_prompt] fields
    keep their values, and no other list object changes. *)
Theorem session_only_appends (llm : Llama) (w : world) :
  (forall p, grows w (snd (chat llm p w))) /\
  (forall p ps, grows w (snd (chat_stream llm p ps w))) /\
  (forall g k, grows w (snd (pull (chat_next llm) k g w))) /\
  (forall g k, grows w (snd (pull (chat_fn_next llm) k g w))).
Proof.
  split; [|split; [|split]]; intros.
  - apply grows_chat.
  - apply grows_chat_stream.
  - apply grows_pull, grows_chat_next.
  - apply grows_pull, grows_chat_fn_next.
Qed.

Lemma starts_with_system_grows w w' :
  grows w w' ->
  starts_with_system (memory_of w) = true ->
  starts_with_system (memory_of w') = true.
Proof.
  intros (_ & _ & [suffix ->] & _). by destruct (memory_of w).
Qed.

(** X8.  A history whose element 0 is a system turn keeps a system turn
    at element 0 through [chat], [chat_stream], pulls on a chat generator,
    [prompt], [prompt_stream] and [modify_system_prompt]; the last one
    never raises on such a history. *)
Theorem system_turn_stays_first (llm : Llama) (w : world) :
  starts_with_system (memory_of w) = true ->
  (forall p, starts_with_system (memory_of (snd (chat llm p w))) = true) /\
  (forall p ps,
      starts_with_system (memory_of (snd (chat_stream llm p ps w))) = true) /\
  (forall g k,
      starts_with_system
        (memory_of (snd (pull (chat_next llm) k g w))) = true) /\
  (forall p um,
      starts_with_system (memory_of (snd (prompt llm p um w))) = true) /\
  (forall p ps um,
      starts_with_system
        (memory_of (snd (prompt_stream llm p ps um w))) = true) /\
  (forall t,
      fst (modify_system_prompt t w) = Ret tt /\
      starts_with_system (memory_of (snd (modify_system_prompt t w))) = true).
Proof.
  intros Hsys. split; [|split; [|split; [|split; [|split]]]]; intros.
  - eapply starts_with_system_grows; [apply grows_chat|assumption].
  - eapply starts_with_system_grows; [apply grows_chat_stream|assumption].
  - eapply starts_with_system_grows;
      [apply grows_pull, grows_chat_next|assumption].
  - rewrite (memory_unchanged_memory_of w); [assumption|].
    apply read_only_prompt.
  - rewrite (memory_unchanged_memory_of w); [assumption|].
    apply read_only_prompt_stream.
  - rewrite modify_system_prompt_run.
    destruct (memory_of w) as [|t0 rest] eqn:Hmem; [discriminate|].
    split; [reflexivity|]. simpl snd.
    unfold memory_of. simpl. by rewrite deref_store_eq.
Qed.

Lemma system_turn_stays_first_witness :
  let w := init "S" in
  (forall p, starts_with_system (memory_of (snd (chat hello p w))) = true) /\
  (forall p ps,
      starts_with_system (memory_of (snd (chat_stream hello p ps w))) = true) /\
  (forall g k,
      starts_with_system
        (memory_of (snd (pull (chat_next hello) k g w))) = true) /\
  (forall p um,
      starts_with_system (memory_of (snd (prompt hello p um w))) = true) /\
  (forall p ps um,
      starts_with_system
        (memory_of (snd (prompt_stream hello p ps um w))) = true) /\
  (forall t,
      fst (modify_system_prompt t w) = Ret tt /\
      starts_with_system (memory_of (snd (modify_system_prompt t w))) = true).
Proof. apply (system_turn_stays_first hello (init "S")). reflexivity. Defined.

(** ** Replacing, clearing and editing the history *)

Lemma memory_of_cleared w :
  memory_of (snd (clear_memory w)) = [system_turn (self_system_prompt w)].
Proof. unfold memory_of, deref. simpl. by rewrite lookup_insert_eq. Qed.

(** X9.  Once the history was replaced by an empty list,
    [modify_system_prompt] raises [IndexError] and changes nothing, a
    [chat p] sends the backend [{user,p}] alone, without any system turn,
    while [prompt p] without memory still sends the stored system
    prompt. *)
Theorem empty_history_edge (llm : Llama) (w : world) (t p : string) :
  let w1 := snd (set_empty_memory w) in
  memory_of w1 = [] /\
  modify_system_prompt t w1 = (Raise IndexError, w1) /\
  requests (snd (chat llm p w1)) = requests w ++ [([user_turn p], false)] /\
  prompt llm p false w1 =
    (create_chat_completion llm
       [system_turn (self_system_prompt w); user_turn p],
     logged [system_turn (self_system_prompt w); user_turn p] false w1).
Proof.
  cbv zeta.
  assert (Hempty : memory_of (snd (set_empty_memory w)) = []).
  { unfold memory_of, deref. simpl. by rewrite lookup_insert_eq. }
  split; [assumption|]. split; [|split].
  - by rewrite modify_system_prompt_run, Hempty.
  - rewrite chat_run, Hempty. cbv zeta. simpl app.
    destruct (create_chat_completion llm [user_turn p]); reflexivity.
  - by rewrite prompt_run.
Qed.

(** X10.  [clear_memory] makes the history the stored system prompt alone,
    also when element 0 had been edited by [modify_system_prompt]: the
    edit is lost.  It does so with a new list object: on a well-formed
    store the list that was the history (which a caller may hold from
    [get_memory]) keeps all its turns, and a later [chat] no longer
    reaches it. *)
Theorem clear_memory_restores_stored_prompt (llm : Llama) (w : world) :
  wf w ->
  exists w',
    clear_memory w = (Ret tt, w') /\
    memory_of w' = [system_turn (self_system_prompt w)] /\
    self_system_prompt w' = self_system_prompt w /\
    deref w' (self_memory w) = memory_of w /\
    (forall p, deref (snd (chat llm p w')) (self_memory w) = memory_of w) /\
    (forall t,
        memory_of (snd (clear_memory (snd (modify_system_prompt t w))))
        = [system_turn (self_system_prompt w)]).
Proof.
  intros Hwf.
  destruct (clear_memory_run w Hwf) as (w' & Hrun & _ & Hmem & Hne & Hold).
  exists w'. split; [assumption|]. split; [assumption|].
  assert (Hsp : self_system_prompt w' = self_system_prompt w).
  { by injection Hrun as <-. }
  assert (Hkeep : deref w' (self_memory w) = memory_of w).
  { apply Hold, Hwf. }
  split; [assumption|]. split; [assumption|]. split.
  - intros p. destruct (grows_chat llm p w') as (_ & _ & _ & Hd).
    rewrite Hd by congruence. assumption.
  - intros t. rewrite memory_of_cleared. f_equal. f_equal.
    rewrite modify_system_prompt_run. by destruct (memory_of w).
Qed.

Lemma clear_memory_restores_stored_prompt_witness :
  let w := init "S" in
  exists w',
    clear_memory w = (Ret tt, w') /\
    memory_of w' = [system_turn (self_system_prompt w)] /\
    self_system_prompt w' = self_system_prompt w /\
    deref w' (self_memory w) = memory_of w /\
    (forall p, deref (snd (chat hello p w')) (self_memory w) = memory_of w) /\
    (forall t,
        memory_of (snd (clear_memory (snd (modify_system_prompt t w))))
        = [system_turn (self_system_prompt w)]).
Proof.
  apply (clear_memory_restores_stored_prompt hello (init "S")).
  apply wf_init.
Defined.

(** X11.  [set_memory] adopts the list object of the caller: [get_memory]
    then returns that very list, the history is its contents, and a
    [chat] that the backend answers appends both turns to the list of the
    caller, while the list that was the history before stays as it
    was. *)
Theorem set_memory_adopts_list (llm : Llama) (w : world) (l : ref)
        (p R : string) :
  create_chat_completion llm (deref w l ++ [user_turn p]) = Ret R ->
  l <> self_memory w ->
  let w1 := snd (set_memory l w) in
  set_memory l w = (Ret tt, w1) /\
  get_memory w1 = (Ret l, w1) /\
  memory_of w1 = deref w l /\
  fst (chat llm p w1) = Ret R /\
  deref (snd (chat llm p w1)) l
    = deref w l ++ [user_turn p; assistant_turn R] /\
  deref (snd (chat llm p w1)) (self_memory w) = memory_of w.
Proof.
  intros HR Hl. cbv zeta.
  split; [reflexivity|]. split; [reflexivity|]. split; [reflexivity|].
  pose proof (chat_run llm p (snd (set_memory l w))) as Hchat.
  cbv zeta in Hchat.
  change (memory_of (snd (set_memory l w))) with (deref w l) in Hchat.
  rewrite HR in Hchat. rewrite Hchat. cbn [fst snd].
  split; [reflexivity|]. split.
  - change (deref ?w0 l) with (memory_of w0) at 1.
    rewrite memory_of_appended, memory_of_logged, memory_of_appended.
    by rewrite <- app_assoc.
  - unfold appended.
    rewrite deref_store_ne by (simpl; congruence).
    change (deref (logged ?m ?b ?w0) (self_memory w))
      with (deref w0 (self_memory w)).
    rewrite deref_store_ne by (simpl; congruence). reflexivity.
Qed.

Lemma set_memory_adopts_list_witness :
  let w := snd (list_new [system_turn "X"] (init "S")) in
  let w1 := snd (set_memory 1 w) in
  set_memory 1 w = (Ret tt, w1) /\
  get_memory w1 = (Ret 1, w1) /\
  memory_of w1 = deref w 1 /\
  fst (chat hello "hi" w1) = Ret "Hello" /\
  deref (snd (chat hello "hi" w1)) 1
    = deref w 1 ++ [user_turn "hi"; assistant_turn "Hello"] /\
  deref (snd (chat hello "hi" w1)) (self_memory w) = memory_of w.
Proof.
  apply (set_memory_adopts_list hello
           (snd (list_new [system_turn "X"] (init "S"))) 1 "hi" "Hello").
  - reflexivity.
  - simpl. lia.
Defined.

(** ** Streams that print, break or fail *)

Lemma memory_of_echoed_all ps ss w :
  memory_of (echoed_all ps ss w) = memory_of w.
Proof.
  revert w. induction ss as [|s ss IH]; intros w; [reflexivity|].
  simpl. rewrite IH. by destruct ps.
Qed.

Lemma requests_echoed_all ps ss w :
  requests (echoed_all ps ss w) = requests w.
Proof.
  revert w. induction ss as [|s ss IH]; intros w; [reflexivity|].
  simpl. rewrite IH. by destruct ps.
Qed.

Lemma stdout_echoed_all ss w :
  stdout (echoed_all true ss w) = stdout w ++ ss.
Proof.
  revert w. induction ss as [|s ss IH]; intros w; simpl.
  - by rewrite app_nil_r.
  - rewrite IH. simpl. by rewrite <- app_assoc.
Qed.

Lemma memory_unchanged_echoed_all ps ss w :
  memory_unchanged w (echoed_all ps ss w).
Proof.
  revert w. induction ss as [|s ss IH]; intros w;
    [apply memory_unchanged_refl|].
  simpl. eapply memory_unchanged_trans; [|apply IH].
  destruct ps; by unfold memory_unchanged.
Qed.

Section Printing.

Variable llm : Llama.

Lemma for_each_prompt_suspended stream :
  forall ps w fuel,
    length stream < fuel ->
    for_each (prompt_next llm) fuel (PromptSuspended ps stream) w =
    (Ret PromptFinished,
     echoed ps newline (echoed_all ps (delivered_fragments stream) w)).
Proof.
  induction stream as [|c rest IH]; intros ps w [|fuel] Hfuel;
    try (simpl in Hfuel; lia).
  - by rewrite for_each_step, prompt_next_end.
  - simpl in Hfuel. rewrite delivered_fragments_cons.
    destruct (truthy (chunk_text c)) eqn:Ht.
    + rewrite for_each_step, prompt_next_yield by assumption.
      by rewrite IH by lia.
    + rewrite for_each_step, prompt_next_skip, <- for_each_step
        by assumption.
      by rewrite IH by lia.
Qed.

Lemma drain_prompt_suspended stream :
  forall ps w,
    drain (prompt_next llm) prompt_pending (PromptSuspended ps stream) w =
    (Ret PromptFinished,
     echoed ps newline (echoed_all ps (delivered_fragments stream) w)).
Proof.
  induction stream as [|c rest IH]; intros ps w.
  - unfold drain. by rewrite bind_run, prompt_next_end.
  - rewrite delivered_fragments_cons.
    destruct (truthy (chunk_text c)) eqn:Ht.
    + unfold drain. rewrite bind_run, prompt_next_yield by assumption.
      by rewrite for_each_prompt_suspended by (simpl; lia).
    + transitivity (drain (prompt_next llm) prompt_pending
                          (PromptSuspended ps rest) w).
      * unfold drain. by rewrite !bind_run, prompt_next_skip.
      * by rewrite IH.
Qed.

Lemma prompt_stream_print_run p use_memory stream w :
  create_chat_completion_stream llm (ephemeral_messages w p use_memory)
    = Ret stream ->
  prompt_stream llm p true use_memory w =
  (Ret None,
   echoed true newline
     (echoed_all true (delivered_fragments stream)
        (logged (ephemeral_messages w p use_memory) true w))).
Proof.
  intros Hs. unfold prompt_stream. rewrite bind_run.
  assert (Hd : drain (prompt_next llm) prompt_pending
                     (PromptCreated p true use_memory) w =
               drain (prompt_next llm) prompt_pending
                     (PromptSuspended true stream)
                     (logged (ephemeral_messages w p use_memory) true w)).
  { unfold drain. rewrite !bind_run, prompt_next_created_run. cbv zeta.
    by rewrite Hs. }
  by rewrite Hd, drain_prompt_suspended.
Qed.

End Printing.

(** X12.  With [print_stream], [chat_stream p] on a stream of chunks that
    all carry a [delta] runs to the end inside the call: it returns
    [None], has printed every non-empty fragment in order and then a
    newline, has asked the backend once, and has appended [{user,p}] and
    one assistant turn with the concatenated fragments. *)
Theorem chat_stream_prints_and_commits
        (llm : Llama) (w : world) (p : string) (stream : list Chunk) :
  create_chat_completion_stream llm (memory_of w ++ [user_turn p])
    = Ret stream ->
  forallb has_delta stream = true ->
  exists w',
    chat_stream llm p true w = (Ret None, w') /\
    memory_of w' =
      memory_of w ++
        [user_turn p;
         assistant_turn (concat_fragments (delivered_fragments stream))] /\
    stdout w' = stdout w ++ delivered_fragments stream ++ [newline] /\
    requests w' = requests w ++ [(memory_of w ++ [user_turn p], true)].
Proof.
  intros Hs Hwf. unfold chat_stream. rewrite bind_run.
  assert (Hd : drain (chat_next llm) chat_pending (ChatCreated p true) w =
               drain (chat_next llm) chat_pending
                     (ChatSuspended true stream "")
                     (logged (memory_of w ++ [user_turn p]) true
                             (appended (user_turn p) w))).
  { unfold drain. rewrite !bind_run, chat_next_created_run. cbv zeta.
    by rewrite Hs. }
  rewrite Hd, drain_chat_suspended by assumption. cbv zeta.
  eexists. split; [reflexivity|]. split; [|split].
  - rewrite memory_of_appended.
    change (memory_of (echoed true newline ?w0)) with (memory_of w0).
    rewrite memory_of_echoed_all, memory_of_logged, memory_of_appended.
    by rewrite <- app_assoc.
  - simpl. rewrite stdout_echoed_all. simpl. by rewrite <- app_assoc.
  - simpl. by rewrite requests_echoed_all.
Qed.

Lemma chat_stream_prints_and_commits_witness :
  let stream := [content_chunk "He"; content_chunk ""; content_chunk "llo"] in
  exists w',
    chat_stream hello "hi" true (init "S") = (Ret None, w') /\
    memory_of w' =
      memory_of (init "S") ++
        [user_turn "hi";
         assistant_turn (concat_fragments (delivered_fragments stream))] /\
    stdout w' = stdout (init "S") ++ delivered_fragments stream ++ [newline] /\
    requests w' = requests (init "S")
                    ++ [(memory_of (init "S") ++ [user_turn "hi"], true)].
Proof.
  apply (chat_stream_prints_and_commits hello (init "S") "hi"
           [content_chunk "He"; content_chunk ""; content_chunk "llo"]);
    reflexivity.
Defined.

(** X13.  With [print_stream], [prompt_stream p] runs to the end inside
    the call, whatever chunks the backend streams: it returns [None], has
    printed every non-empty fragment in order and then a newline, has
    asked the backend once with the ephemeral message list, and has left
    the history alone. *)
Theorem prompt_stream_prints
        (llm : Llama) (w : world) (p : string) (use_memory : bool)
        (stream : list Chunk) :
  create_chat_completion_stream llm (ephemeral_messages w p use_memory)
    = Ret stream ->
  exists w',
    prompt_stream llm p true use_memory w = (Ret None, w') /\
    stdout w' = stdout w ++ delivered_fragments stream ++ [newline] /\
    requests w' = requests w ++ [(ephemeral_messages w p use_memory, true)] /\
    memory_of w' = memory_of w.
Proof.
  intros Hs. rewrite (prompt_stream_print_run llm p use_memory stream)
    by assumption.
  eexists. split; [reflexivity|]. split; [|split].
  - simpl. rewrite stdout_echoed_all. simpl. by rewrite <- app_assoc.
  - simpl. by rewrite requests_echoed_all.
  - change (memory_of (echoed true newline ?w0)) with (memory_of w0).
    by rewrite memory_of_echoed_all.
Qed.

Lemma prompt_stream_prints_witness :
  let stream := [content_chunk "He"; no_delta_chunk; content_chunk "llo"] in
  exists w',
    prompt_stream broken "hi" true false (init "S") = (Ret None, w') /\
    stdout w' = stdout (init "S") ++ delivered_fragments stream ++ [newline] /\
    requests w' = requests (init "S")
                    ++ [(ephemeral_messages (init "S") "hi" false, true)] /\
    memory_of w' = memory_of (init "S").
Proof.
  apply (prompt_stream_prints broken (init "S") "hi" false
           [content_chunk "He"; no_delta_chunk; content_chunk "llo"]).
  reflexivity.
Defined.

Section Breaking.

Variable llm : Llama.

(** Pulling on a chat generator whose stream holds a chunk without
    [delta] after the well-formed chunks [before]. *)
Lemma pull_chat_broken before c rest :
  forallb has_delta before = true ->
  has_delta c = false ->
  forall k fm w,
    pull (chat_next llm) k (ChatSuspended false (before ++ c :: rest) fm) w =
    let tokens := delivered_fragments before in
    if (k <=? length tokens)%nat
    then (Ret (take k tokens,
               ChatSuspended false (unread before k ++ c :: rest)
                             (fm +:+ concat_fragments (take k tokens))),
          w)
    else (Raise (KeyError "delta"), w).
Proof.
  intros Hwf Hc. induction before as [|x before IH]; intros k fm w.
  - destruct k as [|k].
    + simpl. unfold concat_fragments; simpl. by rewrite string_app_nil_r.
    + rewrite pull_step. simpl app. by rewrite chat_next_raises.
  - simpl in Hwf. apply andb_true_iff in Hwf as [Hx Hrest].
    specialize (IH Hrest). destruct k as [|k].
    + simpl. unfold concat_fragments; simpl. by rewrite string_app_nil_r.
    + rewrite pull_step. cbv zeta. rewrite delivered_fragments_cons.
      change ((x :: before) ++ c :: rest) with (x :: before ++ c :: rest).
      destruct (truthy (chunk_text x)) eqn:Ht.
      * rewrite chat_next_yield by assumption. simpl echoed.
        rewrite IH. cbv zeta. simpl length. simpl unread. rewrite Ht.
        change (S k <=? S (length (delivered_fragments before)))%nat
          with (k <=? length (delivered_fragments before))%nat.
        destruct (k <=? length (delivered_fragments before))%nat;
          [|reflexivity].
        simpl. unfold concat_fragments; simpl.
        fold (concat_fragments (take k (delivered_fragments before))).
        by rewrite string_app_assoc.
      * rewrite chat_next_skip by assumption.
        rewrite <- pull_step. rewrite IH. cbv zeta.
        simpl unread. rewrite Ht. reflexivity.
Qed.

Lemma for_each_chat_broken before c rest :
  forallb has_delta before = true ->
  has_delta c = false ->
  forall ps fm w fuel,
    length before < fuel ->
    for_each (chat_next llm) fuel
             (ChatSuspended ps (before ++ c :: rest) fm) w =
    (Raise (KeyError "delta"),
     echoed_all ps (delivered_fragments before) w).
Proof.
  intros Hwf Hc. induction before as [|x before IH];
    intros ps fm w [|fuel] Hfuel; try (simpl in Hfuel; lia).
  - rewrite for_each_step. simpl app. by rewrite chat_next_raises.
  - simpl in Hwf, Hfuel. apply andb_true_iff in Hwf as [Hx Hrest].
    specialize (IH Hrest).
    change ((x :: before) ++ c :: rest) with (x :: before ++ c :: rest).
    rewrite delivered_fragments_cons.
    destruct (truthy (chunk_text x)) eqn:Ht.
    + rewrite for_each_step, chat_next_yield by assumption.
      by rewrite IH by lia.
    + rewrite for_each_step, chat_next_skip, <- for_each_step
        by assumption.
      by rewrite IH by lia.
Qed.

Lemma drain_chat_broken before c rest :
  forallb has_delta before = true ->
  has_delta c = false ->
  forall ps fm w,
    drain (chat_next llm) chat_pending
          (ChatSuspended ps (before ++ c :: rest) fm) w =
    (Raise (KeyError "delta"),
     echoed_all ps (delivered_fragments before) w).
Proof.
  intros Hwf Hc. induction before as [|x before IH]; intros ps fm w.
  - unfold drain. rewrite bind_run. simpl app. by rewrite chat_next_raises.
  - simpl in Hwf. apply andb_true_iff in Hwf as [Hx Hrest].
    specialize (IH Hrest).
    change ((x :: before) ++ c :: rest) with (x :: before ++ c :: rest).
    rewrite delivered_fragments_cons.
    destruct (truthy (chunk_text x)) eqn:Ht.
    + unfold drain. rewrite bind_run, chat_next_yield by assumption.
      rewrite for_each_chat_broken; [reflexivity|assumption..|].
      simpl. rewrite length_app. simpl. lia.
    + transitivity (drain (chat_next llm) chat_pending
                          (ChatSuspended ps (before ++ c :: rest) fm) w).
      * unfold drain. by rewrite !bind_run, chat_next_skip.
      * by rewrite IH.
Qed.

End Breaking.

(** X14.  A chunk without [delta] breaks [chat_stream]: the fragments of
    the chunks before it are yielded, the pull that reaches it raises
    [KeyError], and the history is left with [{user,p}] and no assistant
    turn; with [print_stream] the call itself raises, after printing the
    fragments that came before. *)
Theorem chat_stream_missing_delta
        (llm : Llama) (w : world) (p : string)
        (before : list Chunk) (c : Chunk) (rest : list Chunk) :
  create_chat_completion_stream llm (memory_of w ++ [user_turn p])
    = Ret (before ++ c :: rest) ->
  forallb has_delta before = true ->
  has_delta c = false ->
  let tokens := delivered_fragments before in
  (forall k, 0 < k <= length tokens ->
     exists g' w',
       pull (chat_next llm) k (ChatCreated p false) w
         = (Ret (take k tokens, g'), w') /\
       memory_of w' = memory_of w ++ [user_turn p]) /\
  (forall k, length tokens < k ->
     exists w',
       pull (chat_next llm) k (ChatCreated p false) w
         = (Raise (KeyError "delta"), w') /\
       memory_of w' = memory_of w ++ [user_turn p]) /\
  (exists w',
      chat_stream llm p true w = (Raise (KeyError "delta"), w') /\
      memory_of w' = memory_of w ++ [user_turn p] /\
      stdout w' = stdout w ++ tokens).
Proof.
  intros Hs Hwf Hc tokens.
  assert (Hpull : forall k,
    pull (chat_next llm) (S k) (ChatCreated p false) w =
    pull (chat_next llm) (S k) (ChatSuspended false (before ++ c :: rest) "")
         (logged (memory_of w ++ [user_turn p]) true
                 (appended (user_turn p) w))).
  { intros k. by apply pull_chat_created. }
  split; [|split].
  - intros [|k] Hk; [lia|]. rewrite Hpull, pull_chat_broken by assumption.
    cbv zeta. fold tokens.
    destruct (Nat.leb_spec (S k) (length tokens)); [|lia].
    do 2 eexists. split; [reflexivity|].
    rewrite memory_of_logged. apply memory_of_appended.
  - intros [|k] Hk; [lia|]. rewrite Hpull, pull_chat_broken by assumption.
    cbv zeta. fold tokens.
    destruct (Nat.leb_spec (S k) (length tokens)); [lia|].
    eexists. split; [reflexivity|].
    rewrite memory_of_logged. apply memory_of_appended.
  - unfold chat_stream. rewrite bind_run.
    assert (Hd : drain (chat_next llm) chat_pending (ChatCreated p true) w =
                 drain (chat_next llm) chat_pending
                       (ChatSuspended true (before ++ c :: rest) "")
                       (logged (memory_of w ++ [user_turn p]) true
                               (appended (user_turn p) w))).
    { unfold drain. rewrite !bind_run, chat_next_created_run. cbv zeta.
      by rewrite Hs. }
    rewrite Hd, drain_chat_broken by assumption.
    eexists. split; [reflexivity|]. split.
    + rewrite memory_of_echoed_all, memory_of_logged.
      apply memory_of_appended.
    + by rewrite stdout_echoed_all.
Qed.

Lemma chat_stream_missing_delta_witness :
  let w := init "S" in
  let tokens := delivered_fragments [content_chunk "He"] in
  (forall k, 0 < k <= length tokens ->
     exists g' w',
       pull (chat_next broken) k (ChatCreated "hi" false) w
         = (Ret (take k tokens, g'), w') /\
       memory_of w' = memory_of w ++ [user_turn "hi"]) /\
  (forall k, length tokens < k ->
     exists w',
       pull (chat_next broken) k (ChatCreated "hi" false) w
         = (Raise (KeyError "delta"), w') /\
       memory_of w' = memory_of w ++ [user_turn "hi"]) /\
  (exists w',
      chat_stream broken "hi" true w = (Raise (KeyError "delta"), w') /\
      memory_of w' = memory_of w ++ [user_turn "hi"] /\
      stdout w' = stdout w ++ tokens).
Proof.
  apply (chat_stream_missing_delta broken (init "S") "hi"
           [content_chunk "He"] no_delta_chunk [content_chunk "llo"]);
    reflexivity.
Defined.

(** X15.  When the backend raises on opening the stream of
    [chat_stream p], the first pull (or, with [print_stream], the call
    itself) raises that exception after a single backend call, and the
    history is left with [{user,p}] appended and no assistant turn. *)
Theorem chat_stream_backend_failure
        (llm : Llama) (w : world) (p : string) (e : exn) :
  create_chat_completion_stream llm (memory_of w ++ [user_turn p])
    = Raise e ->
  (forall k ps,
     exists w',
       pull (chat_next llm) (S k) (ChatCreated p ps) w = (Raise e, w') /\
       memory_of w' = memory_of w ++ [user_turn p] /\
       requests w' = requests w ++ [(memory_of w ++ [user_turn p], true)]) /\
  (exists w',
      chat_stream llm p true w = (Raise e, w') /\
      memory_of w' = memory_of w ++ [user_turn p] /\
      requests w' = requests w ++ [(memory_of w ++ [user_turn p], true)]).
Proof.
  intros He.
  assert (Hnext : forall ps,
            chat_next llm (ChatCreated p ps) w =
            (Raise e, logged (memory_of w ++ [user_turn p]) true
                             (appended (user_turn p) w))).
  { intros ps. rewrite chat_next_created_run. cbv zeta. by rewrite He. }
  split.
  - intros k ps. rewrite pull_step, Hnext.
    eexists. split; [reflexivity|]. split; [|reflexivity].
    rewrite memory_of_logged. apply memory_of_appended.
  - unfold chat_stream, drain. rewrite !bind_run, Hnext.
    eexists. split; [reflexivity|]. split; [|reflexivity].
    rewrite memory_of_logged. apply memory_of_appended.
Qed.

Lemma chat_stream_backend_failure_witness :
  let w := init "S" in
  let e := BackendFailure "offline" in
  (forall k ps,
     exists w',
       pull (chat_next offline) (S k) (ChatCreated "hi" ps) w = (Raise e, w') /\
       memory_of w' = memory_of w ++ [user_turn "hi"] /\
       requests w' = requests w ++ [(memory_of w ++ [user_turn "hi"], true)]) /\
  (exists w',
      chat_stream offline "hi" true w = (Raise e, w') /\
      memory_of w' = memory_of w ++ [user_turn "hi"] /\
      requests w' = requests w ++ [(memory_of w ++ [user_turn "hi"], true)]).
Proof.
  apply (chat_stream_backend_failure offline (init "S") "hi"
           (BackendFailure "offline")).
  reflexivity.
Defined.

(** X16.  The assistant turn of a chat stream goes to whatever list is the
    history when the stream ends.  If [clear_memory] runs while a chat
    generator is suspended, pulling that generator to its end makes the
    new history the stored system prompt followed by the assistant turn,
    with no user turn, and the list that was the history keeps its
    unanswered user turn. *)
Theorem clear_memory_during_stream
        (llm : Llama) (w : world) (stream : list Chunk) (fm : string)
        (k : nat) :
  wf w ->
  forallb has_delta stream = true ->
  length (delivered_fragments stream) < k ->
  exists w',
    pull (chat_next llm) k (ChatSuspended false stream fm)
         (snd (clear_memory w))
      = (Ret (delivered_fragments stream, ChatFinished), w') /\
    memory_of w' =
      [system_turn (self_system_prompt w);
       assistant_turn
         (fm +:+ concat_fragments (delivered_fragments stream))] /\
    deref w' (self_memory w) = memory_of w.
Proof.
  intros Hwf Hd Hk.
  destruct (clear_memory_run w Hwf) as (w1 & Hrun & _ & Hmem & Hne & Hold).
  rewrite Hrun. cbn [snd]. rewrite pull_chat_suspended by assumption.
  cbv zeta.
  destruct (Nat.leb_spec k (length (delivered_fragments stream))); [lia|].
  eexists. split; [reflexivity|]. split.
  - by rewrite memory_of_appended, Hmem.
  - unfold appended. rewrite deref_store_ne by congruence.
    apply Hold, Hwf.
Qed.

Lemma clear_memory_during_stream_witness :
  let w := snd (chat offline "hi" (init "S")) in
  exists w',
    pull (chat_next hello) 2 (ChatSuspended false [content_chunk "llo"] "He")
         (snd (clear_memory w))
      = (Ret (delivered_fragments [content_chunk "llo"], ChatFinished), w') /\
    memory_of w' =
      [system_turn (self_system_prompt w);
       assistant_turn
         ("He" +:+ concat_fragments
                     (delivered_fragments [content_chunk "llo"]))] /\
    deref w' (self_memory w) = memory_of w.
Proof.
  apply (clear_memory_during_stream hello
           (snd (chat offline "hi" (init "S"))) [content_chunk "llo"] "He" 2).
  - apply wf_chat, wf_init.
  - reflexivity.
  - vm_compute. lia.
Defined.

(** ** The streaming callback of the adapter *)

Lemma last_cons {A} (x : A) (l : list A) (d : A) :
  List.last (x :: l) d = List.last l x.
Proof.
  revert x d. induction l as [|y l IH]; intros x d; [reflexivity|].
  change (List.last (x :: y :: l) d) with (List.last (y :: l) d).
  by rewrite (IH y d), (IH y x).
Qed.

Lemma last_snapshots partial tokens :
  List.last (snapshots partial tokens) partial
  = partial +:+ concat_fragments tokens.
Proof.
  revert partial. induction tokens as [|t tokens IH]; intros partial.
  - simpl. unfold concat_fragments; simpl. by rewrite string_app_nil_r.
  - simpl snapshots. rewrite last_cons, IH.
    unfold concat_fragments; simpl. by rewrite string_app_assoc.
Qed.

Lemma nth_snapshots tokens :
  forall partial k,
    k < length tokens ->
    nth k (snapshots partial tokens) ""
    = partial +:+ concat_fragments (take (S k) tokens).
Proof.
  induction tokens as [|t tokens IH]; intros partial k Hk;
    [simpl in Hk; lia|].
  destruct k as [|k].
  - simpl. unfold concat_fragments; simpl. by rewrite string_app_nil_r.
  - simpl in Hk. simpl nth. rewrite IH by lia.
    unfold concat_fragments; simpl. by rewrite string_app_assoc.
Qed.

Section CallbackRuns.

Variable llm : Llama.

Lemma chat_fn_resume_run partial gen w :
  chat_fn_resume llm partial gen w =
  match chat_next llm gen w with
  | (Ret (Some chunk, gen'), w') =>
      (Ret (Some (partial +:+ chunk),
            FnSuspended (partial +:+ chunk) gen'), w')
  | (Ret (None, _), w') => (Ret (None, FnFinished), w')
  | (Raise e, w') => (Raise e, w')
  end.
Proof.
  unfold chat_fn_resume. rewrite bind_run.
  destruct (chat_next llm gen w) as [[[[chunk|] gen']|e] w']; reflexivity.
Qed.

Lemma pull_chat_fn_suspended stream :
  forallb has_delta stream = true ->
  forall k partial fm w,
    pull (chat_fn_next llm) k
         (FnSuspended partial (ChatSuspended false stream fm)) w =
    let tokens := delivered_fragments stream in
    if (k <=? length tokens)%nat
    then (Ret (take k (snapshots partial tokens),
               FnSuspended
                 (partial +:+ concat_fragments (take k tokens))
                 (ChatSuspended false (unread stream k)
                    (fm +:+ concat_fragments (take k tokens)))),
          w)
    else (Ret (snapshots partial tokens, FnFinished),
          appended (assistant_turn (fm +:+ concat_fragments tokens)) w).
Proof.
  induction stream as [|c rest IH]; intros Hwf k partial fm w.
  - destruct k as [|k].
    + simpl. unfold concat_fragments; simpl. by rewrite !string_app_nil_r.
    + rewrite pull_step. simpl chat_fn_next.
      rewrite chat_fn_resume_run, chat_next_end. simpl.
      unfold concat_fragments; simpl. by rewrite string_app_nil_r.
  - simpl in Hwf. apply andb_true_iff in Hwf as [Hc Hrest].
    destruct k as [|k].
    + simpl. unfold concat_fragments; simpl. by rewrite !string_app_nil_r.
    + cbv zeta. rewrite delivered_fragments_cons.
      destruct (truthy (chunk_text c)) eqn:Ht.
      * rewrite pull_step. simpl chat_fn_next.
        rewrite chat_fn_resume_run, chat_next_yield by assumption.
        simpl echoed. rewrite (IH Hrest k). cbv zeta.
        simpl length. simpl unread. rewrite Ht.
        change (S k <=? S (length (delivered_fragments rest)))%nat
          with (k <=? length (delivered_fragments rest))%nat.
        destruct (k <=? length (delivered_fragments rest))%nat; simpl.
        -- unfold concat_fragments; simpl.
           fold (concat_fragments (take k (delivered_fragments rest))).
           by rewrite !string_app_assoc.
        -- unfold concat_fragments; simpl.
           fold (concat_fragments (delivered_fragments rest)).
           by rewrite string_app_assoc.
      * transitivity
          (pull (chat_fn_next llm) (S k)
                (FnSuspended partial (ChatSuspended false rest fm)) w).
        -- rewrite !pull_step. simpl chat_fn_next.
           by rewrite !chat_fn_resume_run, chat_next_skip.
        -- rewrite (IH Hrest (S k)). cbv zeta.
           simpl unread. rewrite Ht. reflexivity.
Qed.

Lemma pull_chat_fn_created message stream k w :
  create_chat_completion_stream llm (memory_of w ++ [user_turn message])
    = Ret stream ->
  pull (chat_fn_next llm) (S k) (FnCreated message) w =
  pull (chat_fn_next llm) (S k)
       (FnSuspended "" (ChatSuspended false stream ""))
       (logged (memory_of w ++ [user_turn message]) true
               (appended (user_turn message) w)).
Proof.
  intros Hs. rewrite !pull_step.
  change (chat_fn_next llm (FnCreated message) w)
    with (chat_fn_resume llm "" (ChatCreated message false) w).
  simpl chat_fn_next. rewrite !chat_fn_resume_run.
  rewrite chat_next_created_run. cbv zeta. rewrite Hs. reflexivity.
Qed.

End CallbackRuns.

(** X17.  The callback [chat_fn(message, history)] of the adapter, on a
    stream of chunks that all carry a [delta]: its [k]-th value is the
    concatenation of the first [k] non-empty fragments; pulled to its end
    (as the interface does) it has appended [{user,message}] and one
    assistant turn to the history, and the content of that turn is the
    last value it showed. *)
Theorem chat_fn_shows_running_text
        (llm : Llama) (w : world) (message : string) (stream : list Chunk) :
  create_chat_completion_stream llm (memory_of w ++ [user_turn message])
    = Ret stream ->
  forallb has_delta stream = true ->
  let tokens := delivered_fragments stream in
  (forall k, exists g' w',
      pull (chat_fn_next llm) k (FnCreated message) w
        = (Ret (take k (snapshots "" tokens), g'), w')) /\
  (forall k, k < length tokens ->
      nth k (snapshots "" tokens) ""
      = concat_fragments (take (S k) tokens)) /\
  (forall k, length tokens < k ->
     exists w',
       pull (chat_fn_next llm) k (FnCreated message) w
         = (Ret (snapshots "" tokens, FnFinished), w') /\
       memory_of w' =
         memory_of w ++
           [user_turn message;
            assistant_turn (List.last (snapshots "" tokens) "")]).
Proof.
  intros Hs Hwf tokens.
  assert (Hpull : forall k,
    pull (chat_fn_next llm) (S k) (FnCreated message) w =
    let w1 := logged (memory_of w ++ [user_turn message]) true
                     (appended (user_turn message) w) in
    if (S k <=? length tokens)%nat
    then (Ret (take (S k) (snapshots "" tokens),
               FnSuspended
                 ("" +:+ concat_fragments (take (S k) tokens))
                 (ChatSuspended false (unread stream (S k))
                    ("" +:+ concat_fragments (take (S k) tokens)))),
          w1)
    else (Ret (snapshots "" tokens, FnFinished),
          appended (assistant_turn ("" +:+ concat_fragments tokens)) w1)).
  { intros k. rewrite (pull_chat_fn_created llm message stream) by assumption.
    by rewrite pull_chat_fn_suspended. }
  split; [|split].
  - intros [|k]; [by do 2 eexists|]. rewrite Hpull. cbv zeta.
    destruct (Nat.leb_spec (S k) (length tokens)); [by do 2 eexists|].
    rewrite take_all; [by do 2 eexists|].
    assert (Hlen : forall partial ts,
              length (snapshots partial ts) = length ts).
    { intros partial ts. revert partial.
      induction ts as [|t ts IHts]; intros partial; [reflexivity|].
      simpl. by rewrite IHts. }
    rewrite Hlen. assumption.
  - intros k Hk. by rewrite nth_snapshots.
  - intros [|k] Hk; [lia|]. rewrite Hpull. cbv zeta.
    destruct (Nat.leb_spec (S k) (length tokens)); [lia|].
    eexists. split; [reflexivity|].
    rewrite memory_of_appended, memory_of_logged, memory_of_appended.
    rewrite last_snapshots, <- app_assoc. reflexivity.
Qed.

Lemma chat_fn_shows_running_text_witness :
  let w := init "S" in
  let tokens :=
    delivered_fragments
      [content_chunk "He"; content_chunk ""; content_chunk "llo"] in
  (forall k, exists g' w',
      pull (chat_fn_next hello) k (FnCreated "hi") w
        = (Ret (take k (snapshots "" tokens), g'), w')) /\
  (forall k, k < length tokens ->
      nth k (snapshots "" tokens) ""
      = concat_fragments (take (S k) tokens)) /\
  (forall k, length tokens < k ->
     exists w',
       pull (chat_fn_next hello) k (FnCreated "hi") w
         = (Ret (snapshots "" tokens, FnFinished), w') /\
       memory_of w' =
         memory_of w ++
           [user_turn "hi";
            assistant_turn (List.last (snapshots "" tokens) "")]).
Proof.
  apply (chat_fn_shows_running_text hello (init "S") "hi"
           [content_chunk "He"; content_chunk ""; content_chunk "llo"]);
    reflexivity.
Defined.

(** X18.  What a chat stream does to the display of the adapter: once the
    stream was pulled to its end, the display has gained exactly the pair
    of the prompt and the concatenated fragments; as long as the consumer
    has stopped earlier, the display is what it was before the call, the
    unanswered user turn is not shown. *)
Theorem chat_stream_display
        (llm : Llama) (w : world) (p : string) (stream : list Chunk) :
  create_chat_completion_stream llm (memory_of w ++ [user_turn p])
    = Ret stream ->
  forallb has_delta stream = true ->
  let tokens := delivered_fragments stream in
  (forall k, length tokens < k ->
     _memory_to_chatbot
       (memory_of (snd (pull (chat_next llm) k (ChatCreated p false) w)))
     = _memory_to_chatbot (memory_of w) ++ [(p, concat_fragments tokens)]) /\
  (forall k, k <= length tokens ->
     _memory_to_chatbot
       (memory_of (snd (pull (chat_next llm) k (ChatCreated p false) w)))
     = _memory_to_chatbot (memory_of w)).
Proof.
  intros Hs Hwf tokens.
  assert (Hpull : forall k,
    pull (chat_next llm) (S k) (ChatCreated p false) w =
    let w1 := logged (memory_of w ++ [user_turn p]) true
                     (appended (user_turn p) w) in
    if (S k <=? length tokens)%nat
    then (Ret (take (S k) tokens,
               ChatSuspended false (unread stream (S k))
                 ("" +:+ concat_fragments (take (S k) tokens))), w1)
    else (Ret (tokens, ChatFinished),
          appended (assistant_turn ("" +:+ concat_fragments tokens)) w1)).
  { intros k. rewrite (pull_chat_created llm p stream) by assumption.
    by rewrite pull_chat_suspended. }
  split.
  - intros [|k] Hk; [lia|]. rewrite Hpull. cbv zeta.
    destruct (Nat.leb_spec (S k) (length tokens)); [lia|]. cbn [snd].
    rewrite memory_of_appended, memory_of_logged, memory_of_appended.
    rewrite <- app_assoc.
    apply (memory_to_chatbot_app_exchanges (memory_of w)
             [(p, concat_fragments tokens)]).
  - intros [|k] Hk; [reflexivity|]. rewrite Hpull. cbv zeta.
    destruct (Nat.leb_spec (S k) (length tokens)); [|lia]. cbn [snd].
    rewrite memory_of_logged, memory_of_appended.
    rewrite !memory_to_chatbot_spec, dialogue_app.
    apply answered_pairs_snoc_user.
Qed.

Lemma chat_stream_display_witness :
  let w := init "S" in
  let tokens :=
    delivered_fragments
      [content_chunk "He"; content_chunk ""; content_chunk "llo"] in
  (forall k, length tokens < k ->
     _memory_to_chatbot
       (memory_of (snd (pull (chat_next hello) k (ChatCreated "hi" false) w)))
     = _memory_to_chatbot (memory_of w) ++ [("hi", concat_fragments tokens)]) /\
  (forall k, k <= length tokens ->
     _memory_to_chatbot
       (memory_of (snd (pull (chat_next hello) k (ChatCreated "hi" false) w)))
     = _memory_to_chatbot (memory_of w)).
Proof.
  apply (chat_stream_display hello (init "S") "hi"
           [content_chunk "He"; content_chunk ""; content_chunk "llo"]);
    reflexivity.
Defined.
